(** * QPoker game page: event reconciliation and derived state

    A shallow embedding of the socket handlers and of the betting-round
    predicate of [GamePage] (quantum-poker-frontend/src/pages/GamePage.jsx),
    together with the properties its specification states about them.

    The page is a React function component.  Its handlers receive
    JSON-decoded values from socket.io and react by calling the state
    setters of the component, by emitting on the socket, or by throwing a
    [TypeError] when a property of [undefined] or [null] is read.  The
    embedding keeps these three observable behaviours apart:

    - [Js.value] is the JSON fragment of JavaScript values, with the
      language's truthiness, strict equality, string conversion and
      property access;
    - [Js.completion] is the result of evaluating an expression, either a
      value or a thrown error;
    - [GamePage.Handler] pairs the setter calls and emissions made by a
      handler, in program order, with its completion. *)

From Stdlib Require Import ZArith Lia.
From stdpp Require Import base strings list gmap pretty.

Set Warnings "-register-all".
Local Open Scope string_scope.

(* ===================================================================== *)
(** ** JavaScript values as the handlers meet them                        *)
(* ===================================================================== *)

Module Js.

(** The values a socket.io payload is made of.  Numbers are the integers
    (chips, winnings and ranks are whole numbers; [NaN] cannot come out of
    JSON); a string is the sequence of its characters; an object is a
    finite map from its own property names. *)
Inductive value : Type :=
  | VUndefined
  | VNull
  | VBool (b : bool)
  | VNum (n : Z)
  | VStr (s : string)
  | VArr (elems : list value)
  | VObj (props : gmap string value).

(** An object literal [{k1: v1, ...}]. *)
Definition obj (l : list (string * value)) : value := VObj (list_to_map l).

(** ToBoolean. *)
Definition truthy (v : value) : bool :=
  match v with
  | VUndefined | VNull => false
  | VBool b => b
  | VNum n => negb (n =? 0)%Z
  | VStr s => negb (String.eqb s "")
  | VArr _ | VObj _ => true
  end.

Definition is_nullish (v : value) : bool :=
  match v with
  | VUndefined | VNull => true
  | _ => false
  end.

(** [a === b].  Arrays and objects are compared by reference; the two
    sides of every comparison in the page are either a string of the page
    itself or parts of two different deliveries, so two structured values
    are never the same reference. *)
Definition strict_eq (a b : value) : bool :=
  match a, b with
  | VUndefined, VUndefined => true
  | VNull, VNull => true
  | VBool x, VBool y => Bool.eqb x y
  | VNum x, VNum y => (x =? y)%Z
  | VStr x, VStr y => String.eqb x y
  | _, _ => false
  end.

(** [a || b], for a right operand without effects. *)
Definition js_or (a b : value) : value := if truthy a then a else b.

(** ToString, as used by template literals and by computed property
    keys.  An array prints its elements separated by commas, with
    [undefined] and [null] printed as nothing.  The text is JavaScript's
    for strings, booleans, [undefined], [null], for integers below 10^21
    in magnitude (larger ones are printed with an exponent by
    JavaScript, in full here) and for objects without a member [toString]
    of their own (with one, JavaScript raises a TypeError); statements
    that spell out a text built from a value of the payload keep to
    strings. *)
Fixpoint to_string (v : value) : string :=
  match v with
  | VUndefined => "undefined"
  | VNull => "null"
  | VBool true => "true"
  | VBool false => "false"
  | VNum n => pretty n
  | VStr s => s
  | VArr l =>
      (fix join (l : list value) : string :=
         match l with
         | [] => ""
         | x :: rest =>
             let sx := match x with
                       | VUndefined | VNull => ""
                       | _ => to_string x
                       end in
             match rest with
             | [] => sx
             | _ :: _ => sx +:+ "," +:+ join rest
             end
         end) l
  | VObj _ => "[object Object]"
  end.

(** A property key that is a canonical array index: "0", or a run of
    decimal digits that does not start with "0". *)
Definition digit_of (c : Ascii.ascii) : option N :=
  let n := Ascii.N_of_ascii c in
  if (48 <=? n)%N && (n <=? 57)%N then Some (n - 48)%N else None.

Fixpoint parse_digits (acc : N) (s : string) : option N :=
  match s with
  | EmptyString => Some acc
  | String c rest =>
      match digit_of c with
      | Some d => parse_digits (10 * acc + d)%N rest
      | None => None
      end
  end.

Definition parse_index (k : string) : option N :=
  match k with
  | EmptyString => None
  | String c EmptyString => digit_of c
  | String c _ => if (48 =? Ascii.N_of_ascii c)%N then None else parse_digits 0 k
  end.

(** [v[k]] for a [v] that is neither [undefined] nor [null]: an own
    property of an object, an element or the length of an array, a
    character or the length of a string, and [undefined] otherwise.
    Members inherited from the built-in prototypes are not data and are
    left out, so that this is JavaScript's [v[k]] for the keys that name
    no such member.  None of the property names the page spells out on a
    value of a payload is one; a key that comes from the payload itself
    (a player identifier) can be one, and the statements that say what is
    found under such a key assume that it is not ([Spec.plain_key]). *)
Definition prop_of (v : value) (k : string) : value :=
  match v with
  | VObj m => default VUndefined (m !! k)
  | VArr l =>
      match parse_index k with
      | Some i => default VUndefined (l !! N.to_nat i)
      | None =>
          if String.eqb k "length" then VNum (Z.of_nat (length l))
          else VUndefined
      end
  | VStr s =>
      match parse_index k with
      | Some i =>
          match String.get (N.to_nat i) s with
          | Some c => VStr (String c EmptyString)
          | None => VUndefined
          end
      | None =>
          if String.eqb k "length" then VNum (Z.of_nat (String.length s))
          else VUndefined
      end
  | _ => VUndefined
  end.

(** The only error the handlers can raise. *)
Inductive js_error : Type := TypeError.

(** The completion of an expression or of a function body. *)
Inductive completion (A : Type) : Type :=
  | Normal (a : A)
  | Throw (e : js_error).
Arguments Normal {A} a.
Arguments Throw {A} e.

(** Sequencing: a thrown error skips the rest. *)
Definition bind {A B} (c : completion A) (f : A -> completion B)
  : completion B :=
  match c with
  | Normal a => f a
  | Throw e => Throw e
  end.

Notation "'let*' x ':=' c 'in' k" := (bind c (fun x => k))
  (at level 10, x name, c at level 100, k at level 200).

Definition throws {A} (c : completion A) : bool :=
  match c with
  | Normal _ => false
  | Throw _ => true
  end.

(** [v.k] and [v[k]]: reading a property of [undefined] or [null]
    throws. *)
Definition get_prop (v : value) (k : string) : completion value :=
  if is_nullish v then Throw TypeError else Normal (prop_of v k).

(** [v?.k]: optional chaining never throws. *)
Definition opt_prop (v : value) (k : string) : value :=
  if is_nullish v then VUndefined else prop_of v k.

(** [Object.values(v)].  For an object, the values of its own
    properties; the order of enumeration is the map's, and no result
    below depends on it. *)
Definition Object_values (v : value) : completion (list value) :=
  match v with
  | VUndefined | VNull => Throw TypeError
  | VObj m => Normal (map snd (map_to_list m))
  | VArr l => Normal l
  | VStr s =>
      Normal (map (fun c => VStr (String c EmptyString)) (String.list_ascii_of_string s))
  | VBool _ | VNum _ => Normal []
  end.

(** Array methods over a callback that may throw. *)
Fixpoint array_filter {A} (f : A -> completion bool) (l : list A)
  : completion (list A) :=
  match l with
  | [] => Normal []
  | x :: rest =>
      let* b := f x in
      let* rest' := array_filter f rest in
      Normal (if b then x :: rest' else rest')
  end.

Fixpoint array_every {A} (f : A -> completion bool) (l : list A)
  : completion bool :=
  match l with
  | [] => Normal true
  | x :: rest =>
      let* b := f x in
      if b then array_every f rest else Normal false
  end.

Fixpoint array_some {A} (f : A -> completion bool) (l : list A)
  : completion bool :=
  match l with
  | [] => Normal false
  | x :: rest =>
      let* b := f x in
      if b then Normal true else array_some f rest
  end.

Fixpoint array_map {A B} (f : A -> completion B) (l : list A)
  : completion (list B) :=
  match l with
  | [] => Normal []
  | x :: rest =>
      let* y := f x in
      let* ys := array_map f rest in
      Normal (y :: ys)
  end.

(** Calling an array method on a value: anything but an array has no such
    method, and calling [undefined] throws. *)
Definition as_array (v : value) : completion (list value) :=
  match v with
  | VArr l => Normal l
  | _ => Throw TypeError
  end.

(** [hay.includes(needle)] on strings. *)
Fixpoint string_includes (needle hay : string) : bool :=
  String.prefix needle hay ||
  match hay with
  | EmptyString => false
  | String _ rest => string_includes needle rest
  end.

(** [v.includes(s)] for a string [s]: defined on strings and arrays. *)
Definition includes (v : value) (s : string) : completion bool :=
  match v with
  | VUndefined | VNull => Throw TypeError
  | VStr hay => Normal (string_includes s hay)
  | VArr l => Normal (existsb (fun x => strict_eq x (VStr s)) l)
  | _ => Throw TypeError
  end.

End Js.

(* ===================================================================== *)
(** ** The game page                                                      *)
(* ===================================================================== *)

Module GamePage.
Import Js.

(** One line of the winner popup ([allWinners]). *)
Module Winner.
Record t : Type := Build {
  name : value;
  description : value;
  winnings : value
}.
End Winner.

(** The object stored by [setWinnerInfo]. *)
Record WinnerInfo : Type := {
  playerName : value;
  handDescription : value;
  handRank : value;
  winnings : value;
  isCurrentPlayer : bool;
  isTie : bool;
  isAutoWin : bool;
  allWinners : list Winner.t
}.

(** One stored card transformation ([cardHistory[playerId][i]]). *)
Module Entry.
Record t : Type := Build {
  id : string;
  timestamp : string;
  gate : value;
  originalCard : value;
  resultCard : value;
  phase : value
}.
End Entry.

(** The [useState] cells of the component, with their initial values. *)
Record State : Type := {
  gameState : value;
  lobby : value;
  loading : bool;
  error : value;
  gatePreview : value;
  cardHistory : gmap string (list Entry.t);
  showWinnerPopup : bool;
  winnerInfo : option WinnerInfo
}.

Definition initial : State :=
  {| gameState := VNull; lobby := VNull; loading := true; error := VNull;
     gatePreview := VNull; cardHistory := ∅; showWinnerPopup := false;
     winnerInfo := None |}.

(** What a handler does to the outside: a state setter called with its
    argument, or a message emitted on the socket. *)
Inductive effect : Type :=
  | SetGameState (v : value)
  | SetLobby (v : value)
  | SetError (v : value)
  | SetGatePreview (v : value)
  | SetCardHistory
      (updater : gmap string (list Entry.t) -> gmap string (list Entry.t))
  | SetShowWinnerPopup (b : bool)
  | SetWinnerInfo (w : WinnerInfo)
  | Emit (event : string) (message : value).

(** A handler run: the effects it performed, in order, and how it ended.
    Setter calls made before a throw still take effect. *)
Definition Handler : Type := (list effect * completion unit)%type.

Definition done : Handler := ([], Normal ()).

Definition eval {A} (c : completion A) (k : A -> Handler) : Handler :=
  match c with
  | Normal a => k a
  | Throw e => ([], Throw e)
  end.

Definition call (e : effect) (k : Handler) : Handler := (e :: fst k, snd k).

(** [h; k]: statement sequencing. *)
Definition andthen (h k : Handler) : Handler :=
  match snd h with
  | Normal _ => ((fst h ++ fst k)%list, snd k)
  | Throw e => h
  end.

Notation "'let!' x ':=' c 'in' k" := (eval c (fun x => k))
  (at level 10, x name, c at level 100, k at level 200).

Definition apply_effect (st : State) (e : effect) : State :=
  match e with
  | SetGameState v =>
      {| gameState := v; lobby := lobby st; loading := loading st;
         error := error st; gatePreview := gatePreview st;
         cardHistory := cardHistory st;
         showWinnerPopup := showWinnerPopup st; winnerInfo := winnerInfo st |}
  | SetLobby v =>
      {| gameState := gameState st; lobby := v; loading := loading st;
         error := error st; gatePreview := gatePreview st;
         cardHistory := cardHistory st;
         showWinnerPopup := showWinnerPopup st; winnerInfo := winnerInfo st |}
  | SetError v =>
      {| gameState := gameState st; lobby := lobby st; loading := loading st;
         error := v; gatePreview := gatePreview st;
         cardHistory := cardHistory st;
         showWinnerPopup := showWinnerPopup st; winnerInfo := winnerInfo st |}
  | SetGatePreview v =>
      {| gameState := gameState st; lobby := lobby st; loading := loading st;
         error := error st; gatePreview := v;
         cardHistory := cardHistory st;
         showWinnerPopup := showWinnerPopup st; winnerInfo := winnerInfo st |}
  | SetCardHistory updater =>
      {| gameState := gameState st; lobby := lobby st; loading := loading st;
         error := error st; gatePreview := gatePreview st;
         cardHistory := updater (cardHistory st);
         showWinnerPopup := showWinnerPopup st; winnerInfo := winnerInfo st |}
  | SetShowWinnerPopup b =>
      {| gameState := gameState st; lobby := lobby st; loading := loading st;
         error := error st; gatePreview := gatePreview st;
         cardHistory := cardHistory st;
         showWinnerPopup := b; winnerInfo := winnerInfo st |}
  | SetWinnerInfo w =>
      {| gameState := gameState st; lobby := lobby st; loading := loading st;
         error := error st; gatePreview := gatePreview st;
         cardHistory := cardHistory st;
         showWinnerPopup := showWinnerPopup st; winnerInfo := Some w |}
  | Emit _ _ => st
  end.

Definition apply_effects (st : State) (es : list effect) : State :=
  fold_left apply_effect es st.

(** The messages a run put on the socket. *)
Definition emitted (es : list effect) : list (string * value) :=
  omap (fun e => match e with
                 | Emit ev m => Some (ev, m)
                 | _ => None
                 end) es.

(** The outcome descriptions a run handed to [setWinnerInfo]. *)
Definition outcomes (es : list effect) : list WinnerInfo :=
  omap (fun e => match e with
                 | SetWinnerInfo w => Some w
                 | _ => None
                 end) es.

(** The "Continue Watching" button of the popup. *)
Definition dismiss_popup (st : State) : State :=
  apply_effect st (SetShowWinnerPopup false).

Section Page.

(** The route parameters [/game/:lobbyId/:playerId]. *)
Variables (lobbyId playerId : string).

(** *** Outcome of a completed game *)

(** [player?.name || `Player ${id}`]. *)
Definition player_label (player id : value) : value :=
  js_or (opt_prop player "name") (VStr ("Player " +:+ to_string id)).

(** The auto-win branch: everybody else folded. *)
Definition auto_win_info (payload : value) : completion WinnerInfo :=
  let* result := get_prop payload "result" in
  let* winnerId := get_prop result "winner" in
  let* state := get_prop payload "state" in
  let* players := get_prop state "players" in
  let* winnerPlayer := get_prop players (to_string winnerId) in
  let* won := get_prop result "winnings" in
  Normal
    {| playerName := player_label winnerPlayer winnerId;
       handDescription := VStr "Auto-win (all others folded)";
       handRank := VNum 0;
       winnings := js_or won (VNum 0);
       isCurrentPlayer := strict_eq winnerId (VStr playerId);
       isTie := false;
       isAutoWin := true;
       allWinners :=
         [ Winner.Build (player_label winnerPlayer winnerId)
             (VStr "Auto-win (all others folded)")
             (js_or won (VNum 0)) ] |}.

(** [w => w.player_id === playerId]. *)
Definition is_viewer (w : value) : completion bool :=
  let* pid := get_prop w "player_id" in
  Normal (strict_eq pid (VStr playerId)).

(** The callback of [winners.map]. *)
Definition winner_row (players w : value) : completion Winner.t :=
  let* pid := get_prop w "player_id" in
  let* player := get_prop players (to_string pid) in
  let* description := get_prop w "description" in
  let* won := get_prop w "winnings" in
  Normal (Winner.Build (player_label player pid) description won).

(** The showdown branch: one winner or a tie. *)
Definition showdown_info (payload : value) : completion WinnerInfo :=
  let* result := get_prop payload "result" in
  let* winners := get_prop result "winners" in
  let* winner := get_prop winners "0" in
  let* state := get_prop payload "state" in
  let* players := get_prop state "players" in
  let* winner_id := get_prop winner "player_id" in
  let* winnerPlayer := get_prop players (to_string winner_id) in
  let* entries := as_array winners in
  let* currentPlayerWon := array_some is_viewer entries in
  let* description := get_prop winner "description" in
  let* rank := get_prop winner "hand_rank" in
  let* won := get_prop winner "winnings" in
  let* rows := array_map (winner_row players) entries in
  Normal
    {| playerName := player_label winnerPlayer winner_id;
       handDescription := description;
       handRank := rank;
       winnings := won;
       isCurrentPlayer := currentPlayerWon;
       isTie := (1 <? length entries)%nat;
       isAutoWin := false;
       allWinners := rows |}.

(** [payload.result?.auto_win && payload.result?.winner]. *)
Definition signals_auto_win (result : value) : bool :=
  truthy (opt_prop result "auto_win") && truthy (opt_prop result "winner").

(** The body of [if (payload.state.phase === 'complete')] up to the test
    of the local [winnerInfo]: [None] is its initial [null]. *)
Definition resolve_winner (payload : value) : completion (option WinnerInfo) :=
  let* result := get_prop payload "result" in
  if signals_auto_win result then
    let* w := auto_win_info payload in Normal (Some w)
  else if truthy (opt_prop result "winners") then
    let* w := showdown_info payload in Normal (Some w)
  else Normal None.

Definition show_winner (payload : value) : Handler :=
  let! winnerInfo := resolve_winner payload in
  match winnerInfo with
  | Some w => call (SetWinnerInfo w) (call (SetShowWinnerPopup true) done)
  | None => done
  end.

(** *** Card transformation history *)

(** The predicate of [newHistory[currentPlayerId].find]. *)
Definition same_transformation (gateInfo phase : value) (entry : Entry.t)
  : bool :=
  strict_eq (Entry.originalCard entry) (prop_of gateInfo "original_card")
  && strict_eq (Entry.resultCard entry) (prop_of gateInfo "result_card")
  && strict_eq (Entry.gate entry) (prop_of gateInfo "gate")
  && strict_eq (Entry.phase entry) phase.

(** The entry pushed for a new transformation.  [now] is [Date.now()] and
    [clock] the formatted local time, both read when the updater runs. *)
Definition new_entry (now : Z) (clock : string) (gateInfo phase : value)
  : Entry.t :=
  Entry.Build
    (to_string (prop_of gateInfo "original_card") +:+ "-"
     +:+ to_string (prop_of gateInfo "result_card") +:+ "-"
     +:+ to_string (prop_of gateInfo "gate") +:+ "-"
     +:+ to_string phase +:+ "-" +:+ pretty now)
    clock
    (prop_of gateInfo "gate")
    (js_or (prop_of gateInfo "original_card") (VStr "Unknown"))
    (prop_of gateInfo "result_card")
    phase.

(** The updater passed to [setCardHistory]. *)
Definition record_transformation (now : Z) (clock : string)
    (gateInfo phase : value) (prev : gmap string (list Entry.t))
  : gmap string (list Entry.t) :=
  let entries := default [] (prev !! playerId) in
  match find (same_transformation gateInfo phase) entries with
  | Some _ => <[playerId := entries]> prev
  | None => <[playerId := (entries ++ [new_entry now clock gateInfo phase])%list]> prev
  end.

Definition track_gate (now : Z) (clock : string) (payload : value)
  : Handler :=
  let! result := get_prop payload "result" in
  if truthy (opt_prop result "gate_applied")
     && truthy (opt_prop result "gate_info") then
    let! gateInfo := get_prop result "gate_info" in
    let! state := get_prop payload "state" in
    let! players := get_prop state "players" in
    let! me := get_prop players playerId in
    if truthy me then
      let! phase := get_prop state "phase" in
      call (SetCardHistory (record_transformation now clock gateInfo phase))
        done
    else done
  else done.

(** *** Socket handlers *)

(** [socket.on('game:update', payload => ...)]. *)
Definition on_game_update (now : Z) (clock : string) (payload : value)
  : Handler :=
  let! state := get_prop payload "state" in
  call (SetGameState state)
    (call (SetGatePreview VNull)
       (let! phase := get_prop state "phase" in
        andthen
          (if strict_eq phase (VStr "complete") then show_winner payload
           else done)
          (track_gate now clock payload))).

(** [socket.on('lobby:update', lobbyData => ...)]. *)
Definition on_lobby_update (lobbyData : value) : Handler :=
  let! lobby_id := get_prop lobbyData "lobby_id" in
  if strict_eq lobby_id (VStr lobbyId) then call (SetLobby lobbyData) done
  else done.

(** [socket.on('error', error => ...)]. *)
Definition on_error (err : value) : Handler :=
  let! detail := get_prop err "detail" in
  if negb (strict_eq detail (VStr "Lobby not found")) then
    if strict_eq detail (VStr "Lobby already in game") then
      call (SetError (VStr
        "This game has already started. You cannot join an ongoing game."))
        done
    else call (SetError detail) done
  else done.

(** [socket.on('gate_preview', preview => ...)]. *)
Definition on_gate_preview (preview : value) : Handler :=
  call (SetGatePreview preview) done.

(** *** Joining the room *)

Definition joinRoom : Handler :=
  call (Emit "join"
          (obj [("lobby_id", VStr lobbyId); ("player_id", VStr playerId)]))
    done.

(** The callback of the retry timer.  Its [error] is the variable of the
    render that ran the mount effect: the callback is created once per
    run of the effect and closes over that binding. *)
Definition retry_callback (error : value) : Handler :=
  if negb (truthy error) then joinRoom
  else
    let! permanent := includes error "already started" in
    if negb permanent then joinRoom else done.

(** The mounted page: the component state, what the current run of the
    mount effect holds (the pending retry timer with the [error] its
    callback closed over, and whether the socket listeners are
    registered), and everything sent on the socket so far. *)
Record Page : Type := {
  state : State;
  retryTimer : option value;
  listening : bool;
  sent : list (string * value)
}.

Definition unopened : Page :=
  {| state := initial; retryTimer := None; listening := false; sent := [] |}.

(** What can happen to a page.  [Open] runs the mount effect and [Close]
    its cleanup; [RetryTimerExpires] is the 1000 ms timeout elapsing.
    The HTTP load that the effect also starts ([loadGameData]) settles
    on its own and takes no part in the socket session. *)
Inductive event : Type :=
  | Open
  | GameUpdate (now : Z) (clock : string) (payload : value)
  | LobbyUpdate (lobbyData : value)
  | SocketError (err : value)
  | GatePreview (preview : value)
  | RetryTimerExpires
  | DismissPopup
  | Close.

(** Run a handler against the page. *)
Definition deliver (p : Page) (h : Handler) : Page :=
  {| state := apply_effects (state p) (fst h);
     retryTimer := retryTimer p;
     listening := listening p;
     sent := (sent p ++ emitted (fst h))%list |}.

Definition when_listening (p : Page) (h : Handler) : Page :=
  if listening p then deliver p h else p.

Definition step (p : Page) (ev : event) : Page :=
  match ev with
  | Open =>
      let p' := deliver p joinRoom in
      {| state := state p'; retryTimer := Some (error (state p));
         listening := true; sent := sent p' |}
  | GameUpdate now clock payload =>
      when_listening p (on_game_update now clock payload)
  | LobbyUpdate lobbyData => when_listening p (on_lobby_update lobbyData)
  | SocketError err => when_listening p (on_error err)
  | GatePreview preview => when_listening p (on_gate_preview preview)
  | RetryTimerExpires =>
      match retryTimer p with
      | Some captured =>
          let p' := deliver p (retry_callback captured) in
          {| state := state p'; retryTimer := None;
             listening := listening p'; sent := sent p' |}
      | None => p
      end
  | DismissPopup =>
      {| state := dismiss_popup (state p); retryTimer := retryTimer p;
         listening := listening p; sent := sent p |}
  | Close =>
      {| state := state p; retryTimer := None; listening := false;
         sent := sent p |}
  end.

Definition run (p : Page) (evs : list event) : Page := fold_left step evs p.

(** The join intents among the messages sent. *)
Definition joins (msgs : list (string * value)) : nat :=
  length (filter (fun m => fst m = "join") msgs).

End Page.

(** *** Betting round *)

(** [p => !p.has_folded && !p.is_all_in]. *)
Definition still_betting (p : value) : completion bool :=
  let* folded := get_prop p "has_folded" in
  if truthy folded then Normal false
  else
    let* all_in := get_prop p "is_all_in" in
    Normal (negb (truthy all_in)).

Definition is_active (p : value) : completion bool :=
  let* active := get_prop p "is_active" in
  Normal (truthy active).

Definition has_acted (p : value) : completion bool :=
  let* acted := get_prop p "has_acted" in
  Normal (truthy acted).

(** [gameState.betting_state?.players || {}]. *)
Definition betting_players (gameState : value) : completion value :=
  let* betting_state := get_prop gameState "betting_state" in
  Normal (js_or (opt_prop betting_state "players") (obj [])).

Definition isBettingRoundComplete (gameState : value) : completion bool :=
  let* players := get_prop gameState "players" in
  let* everyone := Object_values players in
  let* activePlayers := array_filter is_active everyone in
  let* betting := betting_players gameState in
  let* views := Object_values betting in
  let* bettingPlayers := array_filter still_betting views in
  if (length bettingPlayers <=? 1)%nat then Normal true
  else array_every has_acted bettingPlayers.

End GamePage.

(* ===================================================================== *)
(** ** The specification's vocabulary                                     *)
(* ===================================================================== *)

Module Spec.
Import Js GamePage.

(** A value that is there: neither [undefined] nor [null]. *)
Definition present (v : value) : Prop := is_nullish v = false.

(** A game snapshot holds a mapping of player records under [players]:
    the snapshot is an object and [Object.values] of its [players]
    enumerates values that are neither [undefined] nor [null]. *)
Definition records (v : value) : bool :=
  match Object_values v with
  | Normal l => forallb (fun p => negb (is_nullish p)) l
  | Throw _ => false
  end.

Definition holds_player_records (gameState : value) : bool :=
  negb (is_nullish gameState) && records (prop_of gameState "players").

(** The players still contesting the pot: not folded and not all-in. *)
Definition still_in (p : value) : bool :=
  negb (truthy (prop_of p "has_folded"))
  && negb (truthy (prop_of p "is_all_in")).

Definition contests (kv : string * value) : Prop := still_in kv.2 = true.

#[global] Instance contests_dec kv : Decision (contests kv).
Proof. unfold contests. apply _. Defined.

Definition contesting (views : gmap string value) : gmap string value :=
  filter contests views.

Definition acted (p : value) : bool := truthy (prop_of p "has_acted").

(** The round is settled: at most one player contests the pot, or every
    contesting player has acted. *)
Definition round_settled (views : gmap string value) : Prop :=
  (size (contesting views) ≤ 1)%nat
  ∨ map_Forall (fun _ p => acted p = true) (contesting views).

(** The three outcome variants, told apart the way the popup does. *)
Inductive variant : Type := AutoWin | ShowdownWin | TieSplit.

Definition variant_of (w : WinnerInfo) : variant :=
  if isTie w then TieSplit
  else if isAutoWin w then AutoWin
  else ShowdownWin.

(** The popup line of one entry of the winners list: the entry's own
    description and winnings, under the name of the player it names. *)
Definition own_row (players w : value) : Winner.t :=
  Winner.Build
    (player_label (prop_of players (to_string (prop_of w "player_id")))
       (prop_of w "player_id"))
    (prop_of w "description")
    (prop_of w "winnings").

(** The content key of a stored transformation. *)
Definition content_key (e : Entry.t) : value * value * value * value :=
  (Entry.originalCard e, Entry.resultCard e, Entry.gate e, Entry.phase e).

(** A value that [===] compares by content: anything but an array or an
    object. *)
Definition primitive (v : value) : Prop := strict_eq v v = true.

(** A gate report that names its original card, with a key made of
    primitive values (cards, gates and phases are strings). *)
Definition fully_keyed (gateInfo phase : value) : Prop :=
  truthy (prop_of gateInfo "original_card") = true
  ∧ primitive (prop_of gateInfo "original_card")
  ∧ primitive (prop_of gateInfo "result_card")
  ∧ primitive (prop_of gateInfo "gate")
  ∧ primitive phase.

(** No two records of a player share a content key. *)
Definition keys_distinct (history : gmap string (list Entry.t)) : Prop :=
  forall player entries,
    history !! player = Some entries -> NoDup (content_key <$> entries).

(** The members every object inherits from [Object.prototype].  Looked
    up under one of these names, an object of a payload answers with a
    built-in member (for "constructor", the function [Object], whose
    [name] is "Object") and not with data of the game. *)
Definition builtin_members : list string :=
  ["constructor"; "hasOwnProperty"; "isPrototypeOf";
   "propertyIsEnumerable"; "toLocaleString"; "toString"; "valueOf";
   "__proto__"; "__defineGetter__"; "__defineSetter__";
   "__lookupGetter__"; "__lookupSetter__"].

(** A key under which an object holds nothing but data of its own. *)
Definition plain_key (id : string) : bool :=
  negb (existsb (String.eqb id) builtin_members).

(** A player identifier as the server issues them: a string that is a
    plain key of the players mapping. *)
Definition plain_identifier (v : value) : bool :=
  match v with
  | VStr id => plain_key id
  | _ => false
  end.

(** A mapping: an object, as opposed to a primitive value or an array. *)
Definition mapping (v : value) : bool :=
  match v with
  | VObj _ => true
  | _ => false
  end.

End Spec.

(* ===================================================================== *)
(** ** Deliveries used as test inputs                                     *)
(* ===================================================================== *)

Module Scenario.
Import Js GamePage.

Definition snapshot (phase : string) (players : list (string * value))
  : value :=
  obj [("phase", VStr phase); ("players", obj players)].

Definition delivery (state result : value) : value :=
  obj [("state", state); ("result", result)].

(** A showdown won by the viewer "p1". *)
Definition flush_entry : value :=
  obj [("player_id", VStr "p1"); ("winnings", VNum 120);
       ("description", VStr "Flush")].

Definition flush_win : value :=
  delivery (snapshot "complete" [("p1", obj [("name", VStr "Ann")])])
    (obj [("winners", VArr [flush_entry])]).

(** What the popup is told about it. *)
Definition flush_win_info : WinnerInfo :=
  {| playerName := VStr "Ann";
     handDescription := VStr "Flush";
     handRank := VUndefined;
     winnings := VNum 120;
     isCurrentPlayer := true;
     isTie := false;
     isAutoWin := false;
     allWinners := [Winner.Build (VStr "Ann") (VStr "Flush") (VNum 120)] |}.

(** A pot split unevenly between "p2" and "p1". *)
Definition pair_of_p2 : value :=
  obj [("player_id", VStr "p2"); ("winnings", VNum 61);
       ("description", VStr "Pair"); ("hand_rank", VNum 2)].

Definition pair_of_p1 : value :=
  obj [("player_id", VStr "p1"); ("winnings", VNum 60);
       ("description", VStr "Pair"); ("hand_rank", VNum 2)].

Definition split_pot : value :=
  delivery
    (snapshot "complete"
       [("p1", obj [("name", VStr "Ann")]); ("p2", obj [("name", VStr "Bob")])])
    (obj [("winners", VArr [pair_of_p2; pair_of_p1])]).

(** "p2" wins because everybody else folded; its record has no name. *)
Definition fold_win : value :=
  delivery (snapshot "complete" [("p2", obj [("chips", VNum 700)])])
    (obj [("auto_win", VBool true); ("winner", VStr "p2");
          ("winnings", VNum 300)]).

(** A completed game whose result payload names no winner. *)
Definition bare_result : value :=
  delivery (snapshot "complete" [("p1", obj [("name", VStr "Ann")])])
    (obj []).

(** A completed game whose winners list is empty. *)
Definition no_winners : value :=
  delivery (snapshot "complete" [("p1", obj [("name", VStr "Ann")])])
    (obj [("winners", VArr [])]).

(** A gate applied on the flop, reported without the original card. *)
Definition gate_without_original : value :=
  delivery (snapshot "flop" [("p1", obj [("name", VStr "Ann")])])
    (obj [("gate_applied", VBool true);
          ("gate_info", obj [("gate", VStr "X"); ("result_card", VStr "7D")])]).

(** The same gate reported in full. *)
Definition gate_in_full : value :=
  delivery (snapshot "flop" [("p1", obj [("name", VStr "Ann")])])
    (obj [("gate_applied", VBool true);
          ("gate_info", obj [("gate", VStr "X"); ("original_card", VStr "7C");
                             ("result_card", VStr "7D")])]).

(** The server refuses the join because the game is running. *)
Definition already_in_game : value :=
  obj [("detail", VStr "Lobby already in game")].

(** A page is opened, the join is refused for good, and the retry timer
    runs out. *)
Definition refused_then_expired : list event :=
  [Open; SocketError already_in_game; RetryTimerExpires].

(** The same gate report delivered twice. *)
Definition gate_delivered_twice (payload : value) : list event :=
  [Open; GameUpdate 1000 "12:00:00" payload;
   GameUpdate 2000 "12:00:01" payload].

(** A single contesting player who has acted. *)
Definition lone_contester : value :=
  obj [("players", obj [("p1", obj [("is_active", VBool true)])]);
       ("betting_state",
        obj [("players",
              obj [("p1", obj [("has_folded", VBool false);
                               ("is_all_in", VBool false);
                               ("has_acted", VBool true)])])])].

Definition lone_views : gmap string value :=
  list_to_map [("p1", obj [("has_folded", VBool false);
                           ("is_all_in", VBool false);
                           ("has_acted", VBool true)])].

(** A snapshot taken before any betting state exists. *)
Definition before_betting : value :=
  obj [("phase", VStr "waiting");
       ("players", obj [("p1", obj [("is_active", VBool true)])])].

End Scenario.

(* ===================================================================== *)
(** ** The winner popup                                                   *)
(* ===================================================================== *)

(** The expressions inside the [{showWinnerPopup && winnerInfo && (...)}]
    block of the render function of [GamePage], as functions of the
    stored [winnerInfo].  The block closes the table view: the render
    function comes to it only on a page that is past its loading, error
    and waiting-room screens and whose table has rendered.  What follows
    says what the block puts on the screen from a given outcome, not
    when the block is drawn. *)
Module WinnerPopup.
Import Js GamePage.

(** The headline. *)
Definition title (w : WinnerInfo) : string :=
  if isTie w then "Tie Game!"
  else if isCurrentPlayer w then "You Won!"
  else to_string (playerName w) +:+ " Won!".

(** The "Hand Information" block: one of three layouts, with the values
    placed in it. *)
Inductive body : Type :=
  | TiedHands (lines : list (value * value))
  | AutoWinBody (handDescription : value)
  | WinningHand (handDescription handRank : value).

Definition hand_information (w : WinnerInfo) : body :=
  if isTie w then
    TiedHands
      (map (fun line => (Winner.name line, Winner.description line))
         (allWinners w))
  else if isAutoWin w then AutoWinBody (handDescription w)
  else WinningHand (handDescription w) (handRank w).

(** The caption and the value of the "Winnings" block. *)
Definition amount_label (w : WinnerInfo) : string :=
  if isTie w then "Split Pot"
  else if isAutoWin w then "Pot Won"
  else "Winnings".

Definition amount (w : WinnerInfo) : value := winnings w.

End WinnerPopup.

(* ===================================================================== *)
(** ** Playing cards                                                      *)
(* ===================================================================== *)

(** The [Card] component (ui/Card.jsx).  It cuts the last UTF-16 code
    unit off the card string, so a card is here the list of its code
    units; [None] stands for a card that is [undefined] or [null]. *)
Module Card.

(** The position a relative index of [slice] denotes in a string of
    length [len]. *)
Definition relative (len k : Z) : Z :=
  if (k <? 0)%Z then Z.max (len + k) 0 else Z.min k len.

(** [s.slice(start)] and [s.slice(start, fin)]. *)
Definition slice (s : list N) (start : Z) (fin : option Z) : list N :=
  let len := Z.of_nat (length s) in
  let from := relative len start in
  let to := match fin with
            | Some e => relative len e
            | None => len
            end in
  take (Z.to_nat (to - from)) (drop (Z.to_nat from) s).

(** The four suit symbols, U+2660, U+2665, U+2666 and U+2663. *)
Definition spade : list N := [9824%N].
Definition heart : list N := [9829%N].
Definition diamond : list N := [9830%N].
Definition club : list N := [9827%N].

Definition suitColors (suit : list N) : option string :=
  if decide (suit = spade) then Some "text-black"
  else if decide (suit = heart) then Some "text-red-600"
  else if decide (suit = diamond) then Some "text-red-600"
  else if decide (suit = club) then Some "text-black"
  else None.

Definition rankColors (suit : list N) : option string :=
  if decide (suit = spade) then Some "text-black"
  else if decide (suit = heart) then Some "text-red-600"
  else if decide (suit = diamond) then Some "text-red-600"
  else if decide (suit = club) then Some "text-black"
  else None.

Definition sizeClasses (size : string) : option string :=
  if String.eqb size "small" then Some "w-10 h-14 text-xs"
  else if String.eqb size "medium" then Some "w-16 h-24 text-sm"
  else if String.eqb size "large" then Some "w-20 h-28 text-base"
  else None.

Definition cornerSize (size : string) : option string :=
  if String.eqb size "small" then Some "text-xs"
  else if String.eqb size "medium" then Some "text-sm"
  else if String.eqb size "large" then Some "text-base"
  else None.

Definition centerSize (size : string) : option string :=
  if String.eqb size "small" then Some "text-2xl"
  else if String.eqb size "medium" then Some "text-4xl"
  else if String.eqb size "large" then Some "text-5xl"
  else None.

(** A table entry inside a template literal: a missing key prints as
    "undefined". *)
Definition printed (entry : option string) : string :=
  default "undefined" entry.

(** What the component returns: nothing, the back of a card, or its
    face with the class names of the card, of its two corners and of its
    centre, and the rank and suit written on it. *)
Inductive view : Type :=
  | Nothing
  | Back (className : string)
  | Face (className topLeft center bottomRight : string)
      (rank suit : list N).

Definition Card (card : option (list N)) (faceDown : bool) (size : string)
  : view :=
  match card with
  | None | Some [] => Nothing
  | Some c =>
      if faceDown then
        Back (printed (sizeClasses size)
              +:+ " playing-card face-down flex items-center justify-center")
      else
        let suit := slice c (-1) None in
        let rank := slice c 0 (Some (-1)%Z) in
        let suitColor := default "text-gray-600" (suitColors suit) in
        let rankColor := default "text-gray-600" (rankColors suit) in
        Face (printed (sizeClasses size) +:+ " playing-card")
          (printed (cornerSize size) +:+ " corner top-left rank " +:+ rankColor)
          (printed (centerSize size) +:+ " center-suit suit " +:+ suitColor
           +:+ " font-bold")
          (printed (cornerSize size) +:+ " corner bottom-right rank "
           +:+ rankColor)
          rank suit
  end.

(** A hole card in the players list of the game page:
    [<Card card={card} faceDown={pid !== playerId} size="medium" />]. *)
Definition hole_card (playerId pid : string) (card : option (list N)) : view :=
  Card card (negb (String.eqb pid playerId)) "medium".

End Card.

(* ===================================================================== *)
(** ** The lobby list of the home page                                    *)
(* ===================================================================== *)

(** The updater that the ['lobby:update'] handler of [HomePage] passes to
    [setLobbies] (pages/HomePage.jsx). *)
Module HomePage.
Import Js.

Fixpoint array_find (f : value -> completion bool) (l : list value)
  : completion value :=
  match l with
  | [] => Normal VUndefined
  | x :: rest =>
      let* b := f x in
      if b then Normal x else array_find f rest
  end.

(** [l => l.lobby_id === lobby.lobby_id]. *)
Definition same_lobby (lobby l : value) : completion bool :=
  let* mine := get_prop l "lobby_id" in
  let* its := get_prop lobby "lobby_id" in
  Normal (strict_eq mine its).

(** [l => l.lobby_id === lobby.lobby_id ? lobby : l]. *)
Definition replace_lobby (lobby l : value) : completion value :=
  let* same := same_lobby lobby l in
  Normal (if same then lobby else l).

Definition upsert_lobby (lobby : value) (prev : list value)
  : completion (list value) :=
  let* found := array_find (same_lobby lobby) prev in
  if truthy found then array_map (replace_lobby lobby) prev
  else Normal (prev ++ [lobby])%list.

End HomePage.

(* ===================================================================== *)
(** ** The stored session                                                 *)
(* ===================================================================== *)

(** [AuthProvider] (contexts/AuthContext.jsx): the signed-in user and
    the token, mirrored in [localStorage]. *)
Module AuthContext.
Import Js.

Record Session : Type := {
  user : value;
  loading : bool;
  token : value
}.

Definition signed_out : Session :=
  {| user := VNull; loading := true; token := VNull |}.

(** [localStorage.getItem(k)]: the stored string, or [null]. *)
Definition getItem (storage : gmap string string) (k : string) : value :=
  match storage !! k with
  | Some s => VStr s
  | None => VNull
  end.

Section Provider.

(** [JSON.parse] on a stored string ([None] when it throws) and the
    string that [JSON.stringify] leaves in the store. *)
Variable JSON_parse : string -> option value.
Variable JSON_stringify : value -> string.

(** The mount effect: pick up a stored session. *)
Definition restore (s : Session) (storage : gmap string string)
  : Session * gmap string string :=
  let storedToken := getItem storage "access_token" in
  let storedUser := getItem storage "user" in
  if truthy storedToken && truthy storedUser then
    match JSON_parse (to_string storedUser) with
    | Some userData =>
        ({| user := userData; loading := false; token := storedToken |},
         storage)
    | None =>
        ({| user := user s; loading := false; token := token s |},
         delete "user" (delete "access_token" storage))
    end
  else ({| user := user s; loading := false; token := token s |}, storage).

(** [login(tokenData, userData)].  Reading [tokenData.access_token]
    comes first, so a throw leaves store and session as they were. *)
Definition login (tokenData userData : value) (s : Session)
    (storage : gmap string string)
  : completion (Session * gmap string string) :=
  let* access_token := get_prop tokenData "access_token" in
  Normal
    ({| user := userData; loading := loading s; token := access_token |},
     <["user" := JSON_stringify userData]>
       (<["access_token" := to_string access_token]> storage)).

Definition logout (s : Session) (storage : gmap string string)
  : Session * gmap string string :=
  ({| user := VNull; loading := loading s; token := VNull |},
   delete "user" (delete "access_token" storage)).

End Provider.

(** [!!(token && user)]. *)
Definition isAuthenticated (s : Session) : bool :=
  truthy (token s) && truthy (user s).

Definition getAuthHeaders (s : Session) : value :=
  if negb (truthy (token s)) then obj []
  else obj [("Authorization", VStr ("Bearer " +:+ to_string (token s)))].

End AuthContext.

(* ===================================================================== *)
(** ** Vocabulary of the further properties                               *)
(* ===================================================================== *)

Module Shape.
Import Js GamePage Spec.

(** The delivery reports a gate:
    [payload.result?.gate_applied && payload.result?.gate_info]. *)
Definition reports_gate (payload : value) : bool :=
  truthy (opt_prop (prop_of payload "result") "gate_applied")
  && truthy (opt_prop (prop_of payload "result") "gate_info").

(** Every gate the delivery reports is fully keyed. *)
Definition well_keyed (payload : value) : Prop :=
  reports_gate payload = true ->
  fully_keyed (prop_of (prop_of payload "result") "gate_info")
    (prop_of (prop_of payload "state") "phase").

Definition well_keyed_event (ev : event) : Prop :=
  match ev with
  | GameUpdate _ _ payload => well_keyed payload
  | _ => True
  end.

(** Something delivered to a handler of the page, or a click on it:
    anything but the mount effect, its cleanup and the timer. *)
Definition is_delivery (ev : event) : bool :=
  match ev with
  | GameUpdate _ _ _ | LobbyUpdate _ | SocketError _ | GatePreview _
  | DismissPopup => true
  | Open | RetryTimerExpires | Close => false
  end.

(** The retries the page may still send: one while the timer is armed. *)
Definition pending (p : Page) : nat :=
  match retryTimer p with
  | Some _ => 1
  | None => 0
  end.

Definition is_open (ev : event) : bool :=
  match ev with
  | Open => true
  | _ => false
  end.

(** An object, as opposed to a primitive value or an array. *)
Definition is_record (v : value) : bool :=
  match v with
  | VObj _ => true
  | _ => false
  end.

(** A lobby record with a primitive identifier. *)
Definition is_lobby (v : value) : Prop :=
  is_record v = true /\ primitive (prop_of v "lobby_id").

(** [JSON.stringify] and [JSON.parse] on the one piece of user data the
    examples store, the number 42. *)
Definition stringify_number (v : value) : string := to_string v.

Definition parse_42 (s : string) : option value :=
  if String.eqb s "42" then Some (VNum 42) else None.

(** The identifiers of a list of lobbies, in order. *)
Definition lobby_ids (lobbies : list value) : list value :=
  map (fun l => prop_of l "lobby_id") lobbies.

(** A lobby as the server broadcasts it. *)
Definition lobby_of (lobby_id name : string) (players : list value) : value :=
  obj [("lobby_id", VStr lobby_id); ("name", VStr name);
       ("players", VArr players)].

End Shape.

(* ===================================================================== *)
(** ** Facts about values and completions                                 *)
(* ===================================================================== *)

Section JsFacts.
Import Js.

Lemma get_prop_present (v : value) (k : string) :
  is_nullish v = false -> get_prop v k = Normal (prop_of v k).
Proof. unfold get_prop. intros ->. reflexivity. Qed.

Lemma get_prop_normal (v x : value) (k : string) :
  get_prop v k = Normal x -> is_nullish v = false /\ x = prop_of v k.
Proof.
  unfold get_prop. destruct (is_nullish v); [discriminate|].
  intros [= <-]. split; reflexivity.
Qed.

Lemma opt_prop_present (v : value) (k : string) :
  is_nullish v = false -> opt_prop v k = prop_of v k.
Proof. unfold opt_prop. intros ->. reflexivity. Qed.

Lemma truthy_present (v : value) : truthy v = true -> is_nullish v = false.
Proof. destruct v; simpl; congruence. Qed.

Lemma truthy_opt_prop (v : value) (k : string) :
  truthy (opt_prop v k) = true ->
  is_nullish v = false /\ opt_prop v k = prop_of v k.
Proof.
  unfold opt_prop. destruct (is_nullish v); simpl; [discriminate|].
  intros _. split; reflexivity.
Qed.

Lemma strict_eq_string (v : value) (s : string) :
  strict_eq v (VStr s) = true <-> v = VStr s.
Proof.
  destruct v; simpl; try (split; [discriminate | intros [=]]).
  rewrite String.eqb_eq. split; [intros ->; reflexivity | intros [= ->]; reflexivity].
Qed.

Lemma strict_eq_string_false (v : value) (s : string) :
  strict_eq v (VStr s) = false <-> v <> VStr s.
Proof.
  rewrite <- strict_eq_string. destruct (strict_eq v (VStr s)); split; congruence.
Qed.

End JsFacts.

(* ===================================================================== *)
(** ** Lobby updates                                                      *)
(* ===================================================================== *)

Section LobbyUpdate.
Import Js GamePage.

(** C9.  A lobby update replaces the held lobby exactly when its
    [lobby_id] is the page's own lobby identifier: the handler then makes
    the single call [setLobby(lobbyData)], after which the held lobby is
    the delivered one; for any other delivery the handler calls no setter
    and the whole component state is left as it was. *)
Theorem lobby_update_same_lobby_only
    (lobbyId : string) (lobbyData : value) (st : State) :
  (get_prop lobbyData "lobby_id" = Normal (VStr lobbyId) <->
   fst (on_lobby_update lobbyId lobbyData) = [SetLobby lobbyData])
  /\ (get_prop lobbyData "lobby_id" = Normal (VStr lobbyId) ->
      lobby (apply_effects st (fst (on_lobby_update lobbyId lobbyData)))
      = lobbyData)
  /\ (get_prop lobbyData "lobby_id" <> Normal (VStr lobbyId) ->
      fst (on_lobby_update lobbyId lobbyData) = []
      /\ apply_effects st (fst (on_lobby_update lobbyId lobbyData)) = st).
Proof.
  unfold on_lobby_update, eval.
  destruct (get_prop lobbyData "lobby_id") as [lobby_id|e] eqn:Hid.
  - destruct (strict_eq lobby_id (VStr lobbyId)) eqn:Heq.
    + apply strict_eq_string in Heq. subst lobby_id.
      repeat split; try reflexivity; intros; congruence.
    + apply strict_eq_string_false in Heq.
      repeat split; simpl; try congruence; try discriminate; reflexivity.
  - repeat split; simpl; try discriminate; reflexivity.
Qed.

End LobbyUpdate.

(* ===================================================================== *)
(** ** Joining and retrying                                               *)
(* ===================================================================== *)

Section Joining.
Import Js GamePage.

(** With no error held when the page opens, the retry timer sends the
    join a second time when it runs out, whatever arrived in between on
    the error channel. *)
Lemma retry_after_clean_open (lobbyId playerId : string) (p : Page) (errs : list value) :
  error (state p) = VNull ->
  retryTimer
    (run lobbyId playerId (step lobbyId playerId p Open)
       (map SocketError errs))
  = Some VNull.
Proof.
  intros Herr.
  assert (Hkeep : forall q,
    retryTimer (run lobbyId playerId q (map SocketError errs)) = retryTimer q).
  { unfold run. induction errs as [|e errs IH]; intros q; [reflexivity|].
    cbn [map fold_left]. rewrite IH. cbn [step].
    unfold when_listening. destruct (listening q); reflexivity. }
  rewrite Hkeep. simpl. rewrite Herr. reflexivity.
Qed.

(** A timer that closed over [null] sends the join once when it runs
    out, and is then spent. *)
Lemma expiry_sends_one_join (lobbyId playerId : string) (p : Page) :
  retryTimer p = Some VNull ->
  sent (step lobbyId playerId p RetryTimerExpires)
  = (sent p
     ++ [("join",
          obj [("lobby_id", VStr lobbyId); ("player_id", VStr playerId)])])%list
  /\ retryTimer (step lobbyId playerId p RetryTimerExpires) = None.
Proof. intros H. cbn [step]. rewrite H. split; reflexivity. Qed.

(** Once the cleanup has run, the timer is gone and its expiry sends
    nothing. *)
Lemma no_retry_after_close (lobbyId playerId : string) (p : Page) :
  step lobbyId playerId (step lobbyId playerId p Close) RetryTimerExpires
  = step lobbyId playerId p Close.
Proof. reflexivity. Qed.

(** C5.  Evaluation at the failing input.  The page is opened, the server
    answers the join with "Lobby already in game" before the timer runs
    out, and the handler stores the "already started" message; the timer
    callback still tests the [error] of the render that created it, which
    was [null], so the join is sent a second time. *)
Theorem retry_sent_despite_permanent_error :
  error (state (run "L1" "p1" unopened Scenario.refused_then_expired))
  = VStr "This game has already started. You cannot join an ongoing game."
  /\ includes
       (error (state (run "L1" "p1" unopened Scenario.refused_then_expired)))
       "already started" = Normal true
  /\ retryTimer (run "L1" "p1" unopened [Open; SocketError Scenario.already_in_game])
     = Some VNull
  /\ joins (sent (run "L1" "p1" unopened Scenario.refused_then_expired)) = 2.
Proof. vm_compute. repeat split; reflexivity. Qed.

End Joining.

(* ===================================================================== *)
(** ** Card transformation history                                        *)
(* ===================================================================== *)

Section Ledger.
Import Js GamePage Spec.

Lemma strict_eq_eq (a b : value) : strict_eq a b = true -> a = b.
Proof.
  destruct a, b; simpl; try discriminate; try reflexivity.
  - intros H. apply Bool.eqb_prop in H. congruence.
  - intros H. apply Z.eqb_eq in H. congruence.
  - intros H. apply String.eqb_eq in H. congruence.
Qed.

(** An entry answers the duplicate search of a fully keyed report
    exactly when it carries the key the report is stored under. *)
Lemma same_transformation_key (now : Z) (clock : string)
    (gateInfo phase : value) (entry : Entry.t) :
  fully_keyed gateInfo phase ->
  same_transformation gateInfo phase entry = true
  <-> content_key entry = content_key (new_entry now clock gateInfo phase).
Proof.
  intros (Htruthy & Ho & Hr & Hg & Hp).
  unfold same_transformation, content_key, new_entry, js_or.
  cbn [Entry.originalCard Entry.resultCard Entry.gate Entry.phase].
  rewrite Htruthy, !andb_true_iff. split.
  - intros [[[H1 H2] H3] H4].
    apply strict_eq_eq in H1, H2, H3, H4. congruence.
  - intros [= -> -> -> ->]. repeat split; assumption.
Qed.

Lemma find_none_snoc {A} (f : A -> bool) (l : list A) (x : A) :
  find f l = None -> f x = true -> find f (l ++ [x]) = Some x.
Proof.
  induction l as [|y l IH]; cbn [find app]; intros Hnone Hx.
  - rewrite Hx. reflexivity.
  - destruct (f y); [discriminate | exact (IH Hnone Hx)].
Qed.

(** Recording a fully keyed report a second time changes nothing. *)
Lemma record_transformation_idempotent
    (playerId : string) (now now' : Z) (clock clock' : string)
    (gateInfo phase : value) (prev : gmap string (list Entry.t)) :
  fully_keyed gateInfo phase ->
  record_transformation playerId now' clock' gateInfo phase
    (record_transformation playerId now clock gateInfo phase prev)
  = record_transformation playerId now clock gateInfo phase prev.
Proof.
  intros Hkey.
  assert (Hstored : exists entries e,
    record_transformation playerId now clock gateInfo phase prev
    = <[playerId := entries]> prev
    /\ find (same_transformation gateInfo phase) entries = Some e).
  { unfold record_transformation.
    destruct (find (same_transformation gateInfo phase)
                (default [] (prev !! playerId))) as [e|] eqn:Hfind.
    - exists (default [] (prev !! playerId)), e. split; [reflexivity|exact Hfind].
    - eexists _, _. split; [reflexivity|].
      apply (find_none_snoc _ _ _ Hfind).
      apply (same_transformation_key now clock _ _ _ Hkey). reflexivity. }
  destruct Hstored as (entries & e & -> & Hfound).
  unfold record_transformation. rewrite lookup_insert_eq.
  cbn [default from_option id]. rewrite Hfound. apply insert_insert_eq.
Qed.

(** Recording a fully keyed report keeps the keys of every player's
    records distinct. *)
Lemma record_transformation_keys_distinct
    (playerId : string) (now : Z) (clock : string)
    (gateInfo phase : value) (prev : gmap string (list Entry.t)) :
  fully_keyed gateInfo phase ->
  keys_distinct prev ->
  keys_distinct (record_transformation playerId now clock gateInfo phase prev).
Proof.
  intros Hkey Hprev player entries. unfold record_transformation.
  assert (Hold : NoDup (content_key <$> default [] (prev !! playerId))).
  { destruct (prev !! playerId) as [es|] eqn:E; cbn [default].
    - exact (Hprev _ _ E).
    - constructor. }
  destruct (find (same_transformation gateInfo phase)
              (default [] (prev !! playerId))) as [e|] eqn:Hfind;
    (destruct (decide (playerId = player)) as [->|Hne];
     [rewrite lookup_insert_eq; intros [= <-]
     |rewrite lookup_insert_ne by exact Hne; apply Hprev]).
  - exact Hold.
  - rewrite fmap_app. apply NoDup_app. split; [exact Hold|].
    split; [|cbn; apply NoDup_singleton].
    intros key Hin Hnew. apply list_elem_of_singleton in Hnew. subst key.
    apply list_elem_of_fmap in Hin as (e & He & Hin).
    apply list_elem_of_In in Hin.
    pose proof (find_none _ _ Hfind e Hin) as Hno.
    symmetry in He.
    apply (same_transformation_key now clock _ _ _ Hkey) in He. congruence.
Qed.

(** Scenario C: a gate report that carries its original card is stored
    once, however often it is delivered. *)
Example full_gate_report_recorded_once :
  exists e,
    cardHistory
      (state (run "L1" "p1" unopened
                (Scenario.gate_delivered_twice Scenario.gate_in_full)))
      !! "p1" = Some [e]
    /\ content_key e = (VStr "7C", VStr "7D", VStr "X", VStr "flop").
Proof. eexists. vm_compute. split; reflexivity. Qed.

(** C2.  Evaluation at the failing input.  A gate report without
    [original_card] is stored under the original card "Unknown", while
    the search for an existing entry compares the stored card with the
    report's own (absent) one; the second delivery of the same report is
    therefore not recognised and a second record with the same content
    key is appended. *)
Theorem missing_original_card_recorded_twice :
  exists e1 e2,
    cardHistory
      (state (run "L1" "p1" unopened
                (Scenario.gate_delivered_twice Scenario.gate_without_original)))
      !! "p1" = Some [e1; e2]
    /\ content_key e1 = (VStr "Unknown", VStr "7D", VStr "X", VStr "flop")
    /\ content_key e1 = content_key e2.
Proof. do 2 eexists. vm_compute. repeat split; reflexivity. Qed.

End Ledger.

(* ===================================================================== *)
(** ** Outcome of a completed game                                        *)
(* ===================================================================== *)

Section Outcome.
Import Js GamePage Spec.

Implicit Types (payload state result players w : value) (ws : list value).

Lemma array_some_is_viewer (playerId : string) (l : list value) :
  Forall present l ->
  array_some (is_viewer playerId) l
  = Normal (existsb (fun w => strict_eq (prop_of w "player_id") (VStr playerId)) l).
Proof.
  induction 1 as [|x l Hx _ IH]; [reflexivity|].
  cbn [array_some existsb]. unfold is_viewer at 1.
  rewrite (get_prop_present _ _ Hx). cbn [bind].
  destruct (strict_eq _ _); [reflexivity | exact IH].
Qed.

Lemma winner_row_own_row players w :
  present players -> present w ->
  winner_row players w = Normal (own_row players w).
Proof.
  intros Hp Hw. unfold winner_row.
  rewrite (get_prop_present _ _ Hw). cbn [bind].
  rewrite (get_prop_present _ _ Hp). cbn [bind].
  rewrite !(get_prop_present _ _ Hw). reflexivity.
Qed.

Lemma array_map_winner_row players (l : list value) :
  present players -> Forall present l ->
  array_map (winner_row players) l = Normal (map (own_row players) l).
Proof.
  intros Hp. induction 1 as [|x l Hx _ IH]; [reflexivity|].
  cbn [array_map map]. rewrite (winner_row_own_row _ _ Hp Hx), IH.
  reflexivity.
Qed.

Lemma existsb_viewer (playerId : string) (l : list value) :
  existsb (fun w => strict_eq (prop_of w "player_id") (VStr playerId)) l = true
  <-> exists x, x ∈ l /\ prop_of x "player_id" = VStr playerId.
Proof.
  rewrite existsb_exists. split; intros (x & Hin & Hx); exists x.
  - apply strict_eq_string in Hx. split; [by apply list_elem_of_In | done].
  - split; [by apply list_elem_of_In | by apply strict_eq_string].
Qed.

(** What the showdown branch computes for a list of winner records. *)
Lemma showdown_info_eval (playerId : string) payload state result w ws :
  get_prop payload "state" = Normal state ->
  get_prop payload "result" = Normal result ->
  opt_prop result "winners" = VArr (w :: ws) ->
  Forall present (w :: ws) ->
  present state ->
  present (prop_of state "players") ->
  showdown_info playerId payload
  = Normal
      {| playerName :=
           player_label
             (prop_of (prop_of state "players")
                (to_string (prop_of w "player_id")))
             (prop_of w "player_id");
         handDescription := prop_of w "description";
         handRank := prop_of w "hand_rank";
         winnings := prop_of w "winnings";
         isCurrentPlayer :=
           existsb
             (fun x => strict_eq (prop_of x "player_id") (VStr playerId))
             (w :: ws);
         isTie := (1 <? length (w :: ws))%nat;
         isAutoWin := false;
         allWinners := map (own_row (prop_of state "players")) (w :: ws) |}.
Proof.
  intros Hstate Hresult Hwinners Hall Hst Hplayers.
  assert (Hres : present result).
  { unfold present. destruct (is_nullish result) eqn:E; [|reflexivity].
    unfold opt_prop in Hwinners. rewrite E in Hwinners. discriminate. }
  rewrite (opt_prop_present _ _ Hres) in Hwinners.
  assert (Hw : present w) by (inversion Hall; assumption).
  unfold showdown_info.
  rewrite Hresult. cbn [bind].
  rewrite (get_prop_present _ _ Hres), Hwinners. cbn [bind].
  change (get_prop (VArr (w :: ws)) "0") with (Normal w). cbn [bind].
  rewrite Hstate. cbn [bind].
  rewrite (get_prop_present _ _ Hst). cbn [bind].
  rewrite !(get_prop_present _ _ Hw). cbn [bind].
  rewrite (get_prop_present _ _ Hplayers). cbn [bind as_array].
  rewrite (array_some_is_viewer _ _ Hall). cbn [bind].
  rewrite (array_map_winner_row _ _ Hplayers Hall). cbn [bind].
  reflexivity.
Qed.

(** What the auto-win branch computes. *)
Lemma auto_win_info_eval (playerId : string) payload state result :
  get_prop payload "state" = Normal state ->
  get_prop payload "result" = Normal result ->
  present result ->
  present state ->
  present (prop_of state "players") ->
  auto_win_info playerId payload
  = Normal
      {| playerName :=
           player_label
             (prop_of (prop_of state "players")
                (to_string (prop_of result "winner")))
             (prop_of result "winner");
         handDescription := VStr "Auto-win (all others folded)";
         handRank := VNum 0;
         winnings := js_or (prop_of result "winnings") (VNum 0);
         isCurrentPlayer := strict_eq (prop_of result "winner") (VStr playerId);
         isTie := false;
         isAutoWin := true;
         allWinners :=
           [ Winner.Build
               (player_label
                  (prop_of (prop_of state "players")
                     (to_string (prop_of result "winner")))
                  (prop_of result "winner"))
               (VStr "Auto-win (all others folded)")
               (js_or (prop_of result "winnings") (VNum 0)) ] |}.
Proof.
  intros Hstate Hresult Hres Hst Hplayers.
  unfold auto_win_info.
  rewrite Hresult. cbn [bind].
  rewrite !(get_prop_present _ _ Hres). cbn [bind].
  rewrite Hstate. cbn [bind].
  rewrite (get_prop_present _ _ Hst). cbn [bind].
  rewrite (get_prop_present _ _ Hplayers). cbn [bind].
  reflexivity.
Qed.

Lemma get_prop_normal_present (v x : value) (k : string) :
  get_prop v k = Normal x -> present v.
Proof. intros H. exact (proj1 (get_prop_normal _ _ _ H)). Qed.

Lemma array_map_winner_row_present players (l : list value)
    (rows : list Winner.t) :
  array_map (winner_row players) l = Normal rows -> Forall present l.
Proof.
  revert rows. induction l as [|x l IH]; intros rows H; [constructor|].
  cbn [array_map] in H.
  destruct (winner_row players x) as [row|e] eqn:Hrow; [|discriminate].
  cbn [bind] in H.
  destruct (array_map (winner_row players) l) as [rows'|e] eqn:Hrest;
    [|discriminate].
  constructor; [|exact (IH _ eq_refl)].
  unfold winner_row in Hrow.
  destruct (get_prop x "player_id") as [pid|e] eqn:Hpid; [|discriminate].
  exact (get_prop_normal_present _ _ _ Hpid).
Qed.

(** The showdown branch completes only on a list of records and a
    players mapping. *)
Lemma showdown_info_normal (playerId : string) payload state result w ws
    (info : WinnerInfo) :
  get_prop payload "state" = Normal state ->
  get_prop payload "result" = Normal result ->
  opt_prop result "winners" = VArr (w :: ws) ->
  showdown_info playerId payload = Normal info ->
  Forall present (w :: ws) /\ present (prop_of state "players").
Proof.
  intros Hstate Hresult Hwinners Hinfo.
  assert (Hres : present result).
  { unfold present. destruct (is_nullish result) eqn:E; [|reflexivity].
    unfold opt_prop in Hwinners. rewrite E in Hwinners. discriminate. }
  rewrite (opt_prop_present _ _ Hres) in Hwinners.
  unfold showdown_info in Hinfo.
  rewrite Hresult in Hinfo. cbn [bind] in Hinfo.
  rewrite (get_prop_present _ _ Hres), Hwinners in Hinfo. cbn [bind] in Hinfo.
  change (get_prop (VArr (w :: ws)) "0") with (Normal w) in Hinfo.
  cbn [bind] in Hinfo. rewrite Hstate in Hinfo. cbn [bind] in Hinfo.
  destruct (get_prop state "players") as [players|e] eqn:Hplayers;
    [|discriminate].
  apply get_prop_normal in Hplayers as [_ ->]. cbn [bind] in Hinfo.
  destruct (get_prop w "player_id") as [pid|e]; [|discriminate].
  cbn [bind] in Hinfo.
  destruct (get_prop (prop_of state "players") (to_string pid))
    as [player|e] eqn:Hplayer; [|discriminate].
  cbn [bind as_array] in Hinfo.
  repeat match type of Hinfo with
         | context [bind ?c _] =>
             destruct c eqn:?; cbn [bind] in Hinfo; try discriminate
         end.
  split.
  - eapply array_map_winner_row_present; eassumption.
  - exact (get_prop_normal_present _ _ _ Hplayer).
Qed.

Lemma signals_auto_win_present result :
  signals_auto_win result = true -> present result.
Proof.
  unfold signals_auto_win. intros H. apply andb_true_iff in H as [H _].
  apply truthy_opt_prop in H as [H _]. exact H.
Qed.

Lemma auto_win_info_flags (playerId : string) payload (info : WinnerInfo) :
  auto_win_info playerId payload = Normal info ->
  isAutoWin info = true /\ isTie info = false.
Proof.
  unfold auto_win_info. intros H.
  repeat match type of H with
         | context [bind ?c _] =>
             destruct c; cbn [bind] in H; try discriminate
         end.
  injection H as <-. split; reflexivity.
Qed.

Lemma showdown_info_flags (playerId : string) payload (info : WinnerInfo) :
  showdown_info playerId payload = Normal info -> isAutoWin info = false.
Proof.
  unfold showdown_info. intros H.
  repeat match type of H with
         | context [bind ?c _] =>
             destruct c; cbn [bind] in H; try discriminate
         end.
  injection H as <-. reflexivity.
Qed.

(** The trace of the popup step follows the resolved outcome. *)
Lemma show_winner_trace (playerId : string) payload :
  show_winner playerId payload
  = match resolve_winner playerId payload with
    | Normal (Some info) =>
        ([SetWinnerInfo info; SetShowWinnerPopup true], Normal ())
    | Normal None => ([], Normal ())
    | Throw e => ([], Throw e)
    end.
Proof.
  unfold show_winner, eval.
  destruct (resolve_winner playerId payload) as [[info|]|e]; reflexivity.
Qed.

(** The gate step calls [setCardHistory] at most, and nothing else. *)
Lemma track_gate_trace (playerId : string) (now : Z) (clock : string) payload :
  fst (track_gate playerId now clock payload) = []
  \/ exists updater,
      fst (track_gate playerId now clock payload) = [SetCardHistory updater].
Proof.
  unfold track_gate, eval.
  repeat match goal with
         | |- context [match ?c with _ => _ end] => destruct c
         end;
    simpl; eauto.
Qed.

Lemma on_game_update_complete
    (playerId : string) (now : Z) (clock : string) payload state :
  get_prop payload "state" = Normal state ->
  get_prop state "phase" = Normal (VStr "complete") ->
  on_game_update playerId now clock payload
  = call (SetGameState state)
      (call (SetGatePreview VNull)
         (andthen (show_winner playerId payload)
            (track_gate playerId now clock payload))).
Proof.
  intros Hstate Hphase. unfold on_game_update.
  rewrite Hstate. cbn [eval]. rewrite Hphase. reflexivity.
Qed.

(** The outcome descriptions a terminal delivery hands to the popup. *)
Lemma outcomes_complete
    (playerId : string) (now : Z) (clock : string) payload state :
  get_prop payload "state" = Normal state ->
  get_prop state "phase" = Normal (VStr "complete") ->
  outcomes (fst (on_game_update playerId now clock payload))
  = match resolve_winner playerId payload with
    | Normal (Some info) => [info]
    | _ => []
    end.
Proof.
  intros Hstate Hphase.
  rewrite (on_game_update_complete _ _ _ _ _ Hstate Hphase).
  rewrite show_winner_trace. unfold call, andthen.
  destruct (track_gate_trace playerId now clock payload) as [Hg|[u Hg]];
    destruct (resolve_winner playerId payload) as [[info|]|e];
    cbn [fst snd]; rewrite ?Hg; reflexivity.
Qed.

(** The popup after a terminal delivery that resolved an outcome. *)
Lemma popup_after_complete
    (playerId : string) (now : Z) (clock : string) payload state
    (info : WinnerInfo) (st : State) :
  get_prop payload "state" = Normal state ->
  get_prop state "phase" = Normal (VStr "complete") ->
  resolve_winner playerId payload = Normal (Some info) ->
  winnerInfo (apply_effects st (fst (on_game_update playerId now clock payload)))
  = Some info
  /\ showWinnerPopup
       (apply_effects st (fst (on_game_update playerId now clock payload)))
     = true.
Proof.
  intros Hstate Hphase Hres.
  rewrite (on_game_update_complete _ _ _ _ _ Hstate Hphase).
  rewrite show_winner_trace, Hres. unfold call, andthen.
  destruct (track_gate_trace playerId now clock payload) as [Hg|[u Hg]];
    cbn [fst snd]; rewrite Hg; split; reflexivity.
Qed.

Lemma resolve_winner_cases (playerId : string) payload result :
  get_prop payload "result" = Normal result ->
  resolve_winner playerId payload
  = if signals_auto_win result then
      let* info := auto_win_info playerId payload in Normal (Some info)
    else if truthy (opt_prop result "winners") then
      let* info := showdown_info playerId payload in Normal (Some info)
    else Normal None.
Proof. intros H. unfold resolve_winner. rewrite H. reflexivity. Qed.

(** C1, counterexample.  A completed game whose result payload is the
    empty object: the phase is 'complete', a result payload accompanies
    it, the handler completes normally, and no outcome description is
    produced. *)
Lemma result_without_winner_gives_no_outcome :
  get_prop (prop_of Scenario.bare_result "state") "phase"
  = Normal (VStr "complete")
  /\ is_nullish (prop_of Scenario.bare_result "result") = false
  /\ snd (on_game_update "p1" 0 "12:00:00" Scenario.bare_result) = Normal ()
  /\ outcomes (fst (on_game_update "p1" 0 "12:00:00" Scenario.bare_result))
     = [].
Proof. vm_compute. repeat split; reflexivity. Qed.

(** C1, as amended.  A game update whose snapshot phase is 'complete'
    produces at most one outcome description, chosen by priority.  With a
    truthy [auto_win] flag and [winner], any outcome produced is an
    AutoWin, and one is produced when the snapshot has a players mapping.
    Otherwise, with a truthy [winners], any outcome produced is a
    ShowdownWin or a TieSplit, and one is produced when [winners] is a
    non-empty list of winner records: a ShowdownWin for a single entry, a
    TieSplit for several.  Otherwise no outcome is produced, whether or
    not a result payload is present. *)
Theorem outcome_exclusive
    (playerId : string) (now : Z) (clock : string) payload state result :
  get_prop payload "state" = Normal state ->
  get_prop state "phase" = Normal (VStr "complete") ->
  get_prop payload "result" = Normal result ->
  (length (outcomes (fst (on_game_update playerId now clock payload))) <= 1)%nat
  /\ (signals_auto_win result = true ->
      (forall info,
          info ∈ outcomes (fst (on_game_update playerId now clock payload)) ->
          variant_of info = AutoWin)
      /\ (present (prop_of state "players") ->
          exists info,
            outcomes (fst (on_game_update playerId now clock payload)) = [info]))
  /\ (signals_auto_win result = false ->
      truthy (opt_prop result "winners") = true ->
      (forall info,
          info ∈ outcomes (fst (on_game_update playerId now clock payload)) ->
          variant_of info = ShowdownWin \/ variant_of info = TieSplit)
      /\ (forall w ws,
             opt_prop result "winners" = VArr (w :: ws) ->
             Forall present (w :: ws) ->
             present (prop_of state "players") ->
             exists info,
               outcomes (fst (on_game_update playerId now clock payload))
               = [info]
               /\ variant_of info
                  = match ws with [] => ShowdownWin | _ :: _ => TieSplit end))
  /\ (signals_auto_win result = false ->
      truthy (opt_prop result "winners") = false ->
      resolve_winner playerId payload = Normal None
      /\ outcomes (fst (on_game_update playerId now clock payload)) = []).
Proof.
  intros Hstate Hphase Hresult.
  rewrite (outcomes_complete _ _ _ _ _ Hstate Hphase).
  rewrite (resolve_winner_cases _ _ _ Hresult).
  destruct (get_prop_normal _ _ _ Hphase) as [Hst _].
  split; [|split; [|split]].
  - destruct (signals_auto_win result);
      [destruct (auto_win_info playerId payload)
      |destruct (truthy (opt_prop result "winners"));
       [destruct (showdown_info playerId payload)|]];
      cbn; lia.
  - intros Hauto. rewrite Hauto. split.
    + intros info.
      destruct (auto_win_info playerId payload) as [info'|e] eqn:Hinfo;
        cbn [bind]; [|intros Hin; inversion Hin].
      intros Hin. apply list_elem_of_singleton in Hin. subst info'.
      apply auto_win_info_flags in Hinfo as [Ha Ht].
      unfold variant_of. rewrite Ht, Ha. reflexivity.
    + intros Hplayers.
      rewrite (auto_win_info_eval _ _ _ _ Hstate Hresult
                 (signals_auto_win_present _ Hauto) Hst Hplayers).
      cbn [bind]. eexists. reflexivity.
  - intros Hauto Hwinners. rewrite Hauto, Hwinners. split.
    + intros info.
      destruct (showdown_info playerId payload) as [info'|e] eqn:Hinfo;
        cbn [bind]; [|intros Hin; inversion Hin].
      intros Hin. apply list_elem_of_singleton in Hin. subst info'.
      apply showdown_info_flags in Hinfo.
      unfold variant_of. rewrite Hinfo. destruct (isTie info); auto.
    + intros w ws Hlist Hall Hplayers.
      rewrite (showdown_info_eval _ _ _ _ _ _ Hstate Hresult Hlist Hall
                 Hst Hplayers).
      cbn [bind]. eexists. split; [reflexivity|].
      unfold variant_of. cbn [isTie isAutoWin]. destruct ws; reflexivity.
  - intros Hauto Hwinners. rewrite Hauto, Hwinners. split; reflexivity.
Qed.

(** The theorem at the uneven split: one outcome, a TieSplit. *)
Lemma outcome_exclusive_witness :
  get_prop Scenario.split_pot "state"
  = Normal (prop_of Scenario.split_pot "state")
  /\ get_prop (prop_of Scenario.split_pot "state") "phase"
     = Normal (VStr "complete")
  /\ get_prop Scenario.split_pot "result"
     = Normal (prop_of Scenario.split_pot "result")
  /\ (length
        (outcomes (fst (on_game_update "p1" 0 "12:00:00" Scenario.split_pot)))
      <= 1)%nat
  /\ exists info,
      outcomes (fst (on_game_update "p1" 0 "12:00:00" Scenario.split_pot))
      = [info]
      /\ variant_of info = TieSplit.
Proof.
  split; [reflexivity|]. split; [reflexivity|]. split; [reflexivity|].
  destruct (outcome_exclusive "p1" 0 "12:00:00" Scenario.split_pot
              (prop_of Scenario.split_pot "state")
              (prop_of Scenario.split_pot "result")
              eq_refl eq_refl eq_refl)
    as (Hmost & _ & Hshowdown & _).
  split; [exact Hmost|].
  destruct (Hshowdown eq_refl eq_refl) as [_ Hsome].
  exact (Hsome Scenario.pair_of_p2 [Scenario.pair_of_p1] eq_refl
           (Forall_cons_2 present Scenario.pair_of_p2 [Scenario.pair_of_p1]
              eq_refl
              (Forall_cons_2 present Scenario.pair_of_p1 [] eq_refl
                 (Forall_nil_2 present)))
           eq_refl).
Defined.

(** C4, counterexample.  The viewer dismisses the popup of a completed
    game and the same terminal delivery arrives once more: resolution
    runs again, produces the outcome again, and the popup is back. *)
Lemma dismissed_popup_shown_again :
  showWinnerPopup
    (state (run "L1" "p1" unopened
              [Open; GameUpdate 0 "12:00:00" Scenario.flush_win; DismissPopup]))
  = false
  /\ length
       (outcomes (fst (on_game_update "p1" 1 "12:00:01" Scenario.flush_win)))
     = 1%nat
  /\ showWinnerPopup
       (state (run "L1" "p1" unopened
                 [Open; GameUpdate 0 "12:00:00" Scenario.flush_win;
                  DismissPopup;
                  GameUpdate 1 "12:00:01" Scenario.flush_win]))
     = true.
Proof. vm_compute. repeat split; reflexivity. Qed.

(** C4, as amended.  Resolution runs on every delivery of a terminal
    snapshot and depends on the delivery alone: whenever the payload
    resolves to an outcome, the handler produces that outcome, stores it
    and shows the popup, whatever the page held before, dismissed popup
    included. *)
Theorem terminal_delivery_shows_outcome
    (lobbyId playerId : string) (now : Z) (clock : string) (p : Page)
    payload state (info : WinnerInfo) :
  listening p = true ->
  get_prop payload "state" = Normal state ->
  get_prop state "phase" = Normal (VStr "complete") ->
  resolve_winner playerId payload = Normal (Some info) ->
  outcomes (fst (on_game_update playerId now clock payload)) = [info]
  /\ winnerInfo
       (GamePage.state
          (step lobbyId playerId p (GameUpdate now clock payload)))
     = Some info
  /\ showWinnerPopup
       (GamePage.state
          (step lobbyId playerId p (GameUpdate now clock payload)))
     = true.
Proof.
  intros Hlisten Hstate Hphase Hres. split.
  - rewrite (outcomes_complete _ _ _ _ _ Hstate Hphase), Hres. reflexivity.
  - cbn [step]. unfold when_listening. rewrite Hlisten. cbn [deliver GamePage.state].
    exact (popup_after_complete _ _ _ _ _ _ _ Hstate Hphase Hres).
Qed.

(** The theorem at Scenario B delivered again after the popup was
    dismissed. *)
Lemma terminal_delivery_shows_outcome_witness :
  listening
    (run "L1" "p1" unopened
       [Open; GameUpdate 0 "12:00:00" Scenario.flush_win; DismissPopup])
  = true
  /\ resolve_winner "p1" Scenario.flush_win
     = Normal (Some Scenario.flush_win_info)
  /\ showWinnerPopup
       (GamePage.state
          (step "L1" "p1"
             (run "L1" "p1" unopened
                [Open; GameUpdate 0 "12:00:00" Scenario.flush_win;
                 DismissPopup])
             (GameUpdate 1 "12:00:01" Scenario.flush_win)))
     = true.
Proof.
  split; [reflexivity|]. split; [reflexivity|].
  exact (proj2 (proj2
    (terminal_delivery_shows_outcome "L1" "p1" 1 "12:00:01"
       (run "L1" "p1" unopened
          [Open; GameUpdate 0 "12:00:00" Scenario.flush_win; DismissPopup])
       Scenario.flush_win (prop_of Scenario.flush_win "state")
       Scenario.flush_win_info eq_refl eq_refl eq_refl eq_refl))).
Defined.

(** C6, counterexample.  Scenario E: "p2" wins by fold and its player
    record has no name.  The display name is "Player p2", not the raw
    identifier "p2", and the description is "Auto-win (all others
    folded)", not "all others folded". *)
Lemma auto_win_label_is_prefixed :
  exists info,
    outcomes (fst (on_game_update "p1" 0 "12:00:00" Scenario.fold_win))
    = [info]
    /\ playerName info = VStr "Player p2"
    /\ playerName info <> VStr "p2"
    /\ handDescription info = VStr "Auto-win (all others folded)"
    /\ handDescription info <> VStr "all others folded"
    /\ winnings info = VNum 300.
Proof.
  eexists. vm_compute. repeat split; try reflexivity; discriminate.
Qed.

(** C6, as amended.  An auto-win result (truthy [auto_win], and a
    [winner] that is a player identifier: a string, and not the name of
    a member every object has) on a terminal snapshot whose [players] is
    a mapping produces one AutoWin outcome whose description is fixed to
    "Auto-win (all others folded)", whose winnings are the payload's, or
    0 when they are absent or falsy, and whose display name is the name
    of the winner's player record, or "Player " followed by the winner
    identifier when there is no such record or it has no name; the
    outcome lists that one winner and is the viewer's exactly when the
    winner identifier is the viewer's.

    The two conditions on the identifier and on [players] are those
    under which [players[winnerId]] finds data of the snapshot or
    nothing, and under which the template [`Player ${winnerId}`] prints
    the identifier as it is. *)
Theorem auto_win_outcome
    (playerId : string) (now : Z) (clock : string) payload state result
    (winnerId : string) :
  get_prop payload "state" = Normal state ->
  get_prop state "phase" = Normal (VStr "complete") ->
  get_prop payload "result" = Normal result ->
  signals_auto_win result = true ->
  prop_of result "winner" = VStr winnerId ->
  plain_key winnerId = true ->
  mapping (prop_of state "players") = true ->
  exists info,
    outcomes (fst (on_game_update playerId now clock payload)) = [info]
    /\ isAutoWin info = true
    /\ isTie info = false
    /\ handDescription info = VStr "Auto-win (all others folded)"
    /\ (truthy (prop_of result "winnings") = true ->
        winnings info = prop_of result "winnings")
    /\ (truthy (prop_of result "winnings") = false ->
        winnings info = VNum 0)
    /\ (truthy
          (opt_prop (prop_of (prop_of state "players") winnerId) "name")
        = true ->
        playerName info
        = opt_prop (prop_of (prop_of state "players") winnerId) "name")
    /\ (truthy
          (opt_prop (prop_of (prop_of state "players") winnerId) "name")
        = false ->
        playerName info = VStr ("Player " +:+ winnerId))
    /\ (isCurrentPlayer info = true <-> winnerId = playerId)
    /\ allWinners info
       = [Winner.Build (playerName info) (handDescription info)
            (winnings info)].
Proof.
  intros Hstate Hphase Hresult Hauto Hwinner _ Hmapping.
  assert (Hplayers : present (prop_of state "players")).
  { destruct (prop_of state "players"); try discriminate Hmapping.
    reflexivity. }
  destruct (get_prop_normal _ _ _ Hphase) as [Hst _].
  rewrite (outcomes_complete _ _ _ _ _ Hstate Hphase).
  rewrite (resolve_winner_cases _ _ _ Hresult), Hauto.
  rewrite (auto_win_info_eval _ _ _ _ Hstate Hresult
             (signals_auto_win_present _ Hauto) Hst Hplayers).
  rewrite Hwinner.
  cbn [bind]. eexists. split; [reflexivity|].
  cbn [isAutoWin isTie handDescription winnings playerName isCurrentPlayer
       allWinners to_string strict_eq].
  unfold player_label, js_or. cbn [to_string].
  repeat split; try (intros ->; reflexivity); try apply String.eqb_eq.
Qed.

(** The theorem at Scenario E. *)
Lemma auto_win_outcome_witness :
  get_prop Scenario.fold_win "state"
  = Normal (prop_of Scenario.fold_win "state")
  /\ get_prop (prop_of Scenario.fold_win "state") "phase"
     = Normal (VStr "complete")
  /\ get_prop Scenario.fold_win "result"
     = Normal (prop_of Scenario.fold_win "result")
  /\ signals_auto_win (prop_of Scenario.fold_win "result") = true
  /\ prop_of (prop_of Scenario.fold_win "result") "winner" = VStr "p2"
  /\ plain_key "p2" = true
  /\ mapping (prop_of (prop_of Scenario.fold_win "state") "players") = true
  /\ exists info,
      outcomes (fst (on_game_update "p1" 0 "12:00:00" Scenario.fold_win))
      = [info]
      /\ isAutoWin info = true
      /\ playerName info = VStr "Player p2"
      /\ isCurrentPlayer info = false.
Proof.
  do 7 (split; [reflexivity|]).
  destruct (auto_win_outcome "p1" 0 "12:00:00" Scenario.fold_win
              (prop_of Scenario.fold_win "state")
              (prop_of Scenario.fold_win "result") "p2"
              eq_refl eq_refl eq_refl eq_refl eq_refl eq_refl eq_refl)
    as (info & Hone & Hauto & _ & _ & _ & _ & _ & Hfallback & Hviewer & _).
  exists info. split; [exact Hone|]. split; [exact Hauto|].
  split; [exact (Hfallback eq_refl)|].
  destruct (isCurrentPlayer info); [|reflexivity].
  destruct Hviewer as [Hviewer _]. discriminate (Hviewer eq_refl).
Defined.

(** C7.  On a terminal snapshot whose result payload carries a non-empty
    winners list and no auto-win, an outcome is produced as soon as the
    entries are winner records and the snapshot has a players mapping, and
    every outcome produced has the first entry as its headline (its
    description, rank and winnings, under the name of the player it
    names), is a tie exactly when the list has more than one entry, is
    the viewer's exactly when some entry of the list, in any position,
    names the viewer, and keeps the whole list in order, each line with
    the entry's own description and winnings. *)
Theorem showdown_outcome
    (playerId : string) (now : Z) (clock : string)
    payload state result w ws :
  get_prop payload "state" = Normal state ->
  get_prop state "phase" = Normal (VStr "complete") ->
  get_prop payload "result" = Normal result ->
  signals_auto_win result = false ->
  opt_prop result "winners" = VArr (w :: ws) ->
  (Forall present (w :: ws) ->
   present (prop_of state "players") ->
   exists info,
     outcomes (fst (on_game_update playerId now clock payload)) = [info])
  /\ (forall info,
         info ∈ outcomes (fst (on_game_update playerId now clock payload)) ->
         isAutoWin info = false
         /\ playerName info
            = player_label
                (prop_of (prop_of state "players")
                   (to_string (prop_of w "player_id")))
                (prop_of w "player_id")
         /\ handDescription info = prop_of w "description"
         /\ handRank info = prop_of w "hand_rank"
         /\ winnings info = prop_of w "winnings"
         /\ (isTie info = true <-> (1 < length (w :: ws))%nat)
         /\ (isCurrentPlayer info = true <->
             exists x, x ∈ w :: ws /\ prop_of x "player_id" = VStr playerId)
         /\ allWinners info
            = map (own_row (prop_of state "players")) (w :: ws)
         /\ (forall i x,
                (w :: ws) !! i = Some x ->
                exists line,
                  allWinners info !! i = Some line
                  /\ Winner.description line = prop_of x "description"
                  /\ Winner.winnings line = prop_of x "winnings")).
Proof.
  intros Hstate Hphase Hresult Hauto Hlist.
  destruct (get_prop_normal _ _ _ Hphase) as [Hst _].
  rewrite (outcomes_complete _ _ _ _ _ Hstate Hphase).
  rewrite (resolve_winner_cases _ _ _ Hresult), Hauto, Hlist.
  cbn [truthy]. split.
  - intros Hall Hplayers.
    rewrite (showdown_info_eval _ _ _ _ _ _ Hstate Hresult Hlist Hall
               Hst Hplayers).
    cbn [bind]. eexists. reflexivity.
  - intros info.
    destruct (showdown_info playerId payload) as [info'|e] eqn:Hinfo;
      cbn [bind]; [|intros Hin; inversion Hin].
    intros Hin. apply list_elem_of_singleton in Hin. subst info'.
    destruct (showdown_info_normal _ _ _ _ _ _ _ Hstate Hresult Hlist Hinfo)
      as [Hall Hplayers].
    rewrite (showdown_info_eval _ _ _ _ _ _ Hstate Hresult Hlist Hall
               Hst Hplayers) in Hinfo.
    injection Hinfo as <-.
    cbn [isAutoWin isTie handDescription handRank winnings playerName
         isCurrentPlayer allWinners].
    do 5 (split; [reflexivity|]).
    split; [exact (Nat.ltb_lt 1 (length (w :: ws)))|].
    split; [exact (existsb_viewer playerId (w :: ws))|].
    split; [reflexivity|].
    intros i x Hi. exists (own_row (prop_of state "players") x).
    split; [|split; reflexivity].
    change (map (own_row (prop_of state "players")) (w :: ws) !! i
            = Some (own_row (prop_of state "players") x)).
    rewrite list_lookup_fmap, Hi. reflexivity.
Qed.

(** An uneven split: each line keeps its own winnings, the headline is
    the first entry, and the viewer is found in second position. *)
Example split_pot_outcome :
  exists info,
    outcomes (fst (on_game_update "p1" 0 "12:00:00" Scenario.split_pot))
    = [info]
    /\ playerName info = VStr "Bob"
    /\ winnings info = VNum 61
    /\ isTie info = true
    /\ isCurrentPlayer info = true
    /\ allWinners info
       = [Winner.Build (VStr "Bob") (VStr "Pair") (VNum 61);
          Winner.Build (VStr "Ann") (VStr "Pair") (VNum 60)].
Proof. eexists. vm_compute. repeat split; reflexivity. Qed.

(** The theorem at Scenario B: the viewer wins 120 alone. *)
Lemma showdown_outcome_witness :
  get_prop Scenario.flush_win "state"
  = Normal (prop_of Scenario.flush_win "state")
  /\ get_prop (prop_of Scenario.flush_win "state") "phase"
     = Normal (VStr "complete")
  /\ get_prop Scenario.flush_win "result"
     = Normal (prop_of Scenario.flush_win "result")
  /\ signals_auto_win (prop_of Scenario.flush_win "result") = false
  /\ opt_prop (prop_of Scenario.flush_win "result") "winners"
     = VArr [Scenario.flush_entry]
  /\ exists info,
      outcomes (fst (on_game_update "p1" 0 "12:00:00" Scenario.flush_win))
      = [info]
      /\ winnings info = VNum 120
      /\ (isTie info = true <-> (1 < 1)%nat)
      /\ (isCurrentPlayer info = true <->
          exists x,
            x ∈ [Scenario.flush_entry] /\ prop_of x "player_id" = VStr "p1").
Proof.
  do 5 (split; [reflexivity|]).
  destruct (showdown_outcome "p1" 0 "12:00:00" Scenario.flush_win
              (prop_of Scenario.flush_win "state")
              (prop_of Scenario.flush_win "result")
              Scenario.flush_entry []
              eq_refl eq_refl eq_refl eq_refl eq_refl)
    as [Hsome Hevery].
  destruct (Hsome (Forall_cons_2 present Scenario.flush_entry [] eq_refl
                     (Forall_nil_2 present))
              eq_refl) as [info Hout].
  exists info. split; [exact Hout|].
  destruct (Hevery info) as (_ & _ & _ & _ & Hwon & Htie & Hme & _).
  { rewrite Hout. apply list_elem_of_singleton. reflexivity. }
  split; [exact Hwon|]. split; [exact Htie | exact Hme].
Defined.

End Outcome.

(* ===================================================================== *)
(** ** Robustness of the game-update handler                              *)
(* ===================================================================== *)

Section Robustness.
Import Js GamePage Spec.

Lemma track_gate_completes
    (playerId : string) (now : Z) (clock : string) (payload state : value) :
  get_prop payload "state" = Normal state ->
  present state ->
  present (prop_of state "players") ->
  snd (track_gate playerId now clock payload) = Normal ().
Proof.
  intros Hstate Hst Hplayers.
  destruct (get_prop_normal _ _ _ Hstate) as [Hpayload _].
  unfold track_gate. rewrite (get_prop_present _ _ Hpayload). cbn [eval].
  destruct (truthy (opt_prop (prop_of payload "result") "gate_applied")
            && truthy (opt_prop (prop_of payload "result") "gate_info"))
    eqn:Hgate; [|reflexivity].
  apply andb_true_iff in Hgate as [Hg _].
  apply truthy_opt_prop in Hg as [Hres _].
  rewrite (get_prop_present _ _ Hres). cbn [eval].
  rewrite Hstate. cbn [eval].
  rewrite (get_prop_present _ _ Hst). cbn [eval].
  rewrite (get_prop_present _ _ Hplayers). cbn [eval].
  destruct (truthy (prop_of (prop_of state "players") playerId));
    [|reflexivity].
  rewrite (get_prop_present _ _ Hst). reflexivity.
Qed.

(** Where the handler is safe: a delivery with a snapshot that has a
    players mapping is processed without an error as long as its winners,
    when a showdown is to be resolved, are a non-empty list of records. *)
Lemma game_update_completes
    (playerId : string) (now : Z) (clock : string) (payload state : value) :
  get_prop payload "state" = Normal state ->
  present state ->
  present (prop_of state "players") ->
  (prop_of state "phase" = VStr "complete" ->
   signals_auto_win (prop_of payload "result") = false ->
   truthy (opt_prop (prop_of payload "result") "winners") = true ->
   exists w ws,
     opt_prop (prop_of payload "result") "winners" = VArr (w :: ws)
     /\ Forall present (w :: ws)) ->
  snd (on_game_update playerId now clock payload) = Normal ().
Proof.
  intros Hstate Hst Hplayers Hwinners.
  destruct (get_prop_normal _ _ _ Hstate) as [Hpayload _].
  pose proof (track_gate_completes playerId now clock _ _ Hstate Hst Hplayers)
    as Hgate.
  unfold on_game_update. rewrite Hstate. cbn [eval call snd].
  rewrite (get_prop_present _ _ Hst). cbn [eval].
  destruct (strict_eq (prop_of state "phase") (VStr "complete")) eqn:Hphase.
  2:{ unfold andthen. cbn [done snd]. exact Hgate. }
  apply strict_eq_string in Hphase.
  rewrite show_winner_trace.
  rewrite (resolve_winner_cases _ _ _ (get_prop_present _ _ Hpayload)).
  destruct (signals_auto_win (prop_of payload "result")) eqn:Hauto.
  - rewrite (auto_win_info_eval _ _ _ _ Hstate
               (get_prop_present _ _ Hpayload)
               (signals_auto_win_present _ Hauto) Hst Hplayers).
    cbn [bind]. unfold andthen. cbn [snd]. exact Hgate.
  - destruct (truthy (opt_prop (prop_of payload "result") "winners"))
      eqn:Htruthy.
    + destruct (Hwinners Hphase eq_refl eq_refl) as (w & ws & Hlist & Hall).
      rewrite (showdown_info_eval _ _ _ _ _ _ Hstate
                 (get_prop_present _ _ Hpayload) Hlist Hall Hst Hplayers).
      cbn [bind]. unfold andthen. cbn [snd]. exact Hgate.
    + unfold andthen. cbn [snd]. exact Hgate.
Qed.

(** An absent result payload is tolerated. *)
Example absent_result_is_tolerated :
  on_game_update "p1" 0 "12:00:00"
    (obj [("state", Scenario.snapshot "flop" [])])
  = ([SetGameState (Scenario.snapshot "flop" []); SetGatePreview VNull],
     Normal ()).
Proof. vm_compute. reflexivity. Qed.

(** C8.  Evaluation at the failing input.  An empty winners list is an
    array, hence truthy: the showdown branch is entered, [winners[0]] is
    [undefined], and reading its [player_id] throws after the snapshot
    has been stored and the preview cleared. *)
Theorem empty_winners_list_throws :
  truthy (prop_of (prop_of Scenario.no_winners "result") "winners") = true
  /\ get_prop (prop_of (prop_of Scenario.no_winners "result") "winners") "0"
     = Normal VUndefined
  /\ on_game_update "p1" 0 "12:00:00" Scenario.no_winners
     = ([SetGameState (prop_of Scenario.no_winners "state");
         SetGatePreview VNull],
        Throw TypeError).
Proof. vm_compute. repeat split; reflexivity. Qed.

End Robustness.

(* ===================================================================== *)
(** ** Betting round                                                      *)
(* ===================================================================== *)

Section Betting.
Import Js GamePage Spec.

Lemma array_filter_pure {A} (f : A -> completion bool) (g : A -> bool)
    (l : list A) :
  Forall (fun x => f x = Normal (g x)) l ->
  array_filter f l = Normal (List.filter g l).
Proof.
  induction 1 as [|x l Hx _ IH]; [reflexivity|].
  cbn [array_filter List.filter]. rewrite Hx, IH. reflexivity.
Qed.

Lemma array_every_pure {A} (f : A -> completion bool) (g : A -> bool)
    (l : list A) :
  Forall (fun x => f x = Normal (g x)) l ->
  array_every f l = Normal (forallb g l).
Proof.
  induction 1 as [|x l Hx _ IH]; [reflexivity|].
  cbn [array_every forallb]. rewrite Hx. cbn [bind].
  destruct (g x); [exact IH | reflexivity].
Qed.

Lemma still_betting_still_in (p : value) :
  present p -> still_betting p = Normal (still_in p).
Proof.
  intros Hp. unfold still_betting, still_in.
  rewrite (get_prop_present _ _ Hp). cbn [bind].
  destruct (truthy (prop_of p "has_folded")); [reflexivity|].
  rewrite (get_prop_present _ _ Hp). reflexivity.
Qed.

Lemma records_values (v : value) :
  records v = true ->
  exists l, Object_values v = Normal l /\ Forall present l.
Proof.
  unfold records. destruct (Object_values v) as [l|e]; [|discriminate].
  intros H. exists l. split; [reflexivity|].
  apply Forall_forall. intros x Hx.
  rewrite forallb_forall in H. apply list_elem_of_In in Hx.
  specialize (H x Hx). unfold present. destruct (is_nullish x); [discriminate|reflexivity].
Qed.

(** The predicate as a closed formula, for a snapshot that holds player
    records and whose betting views are records. *)
Lemma isBettingRoundComplete_eval (gameState betting : value) :
  holds_player_records gameState = true ->
  betting_players gameState = Normal betting ->
  records betting = true ->
  exists views,
    Object_values betting = Normal views
    /\ isBettingRoundComplete gameState
       = Normal ((length (List.filter still_in views) <=? 1)%nat
                 || forallb acted (List.filter still_in views)).
Proof.
  intros Hgs Hbet Hrec.
  apply andb_true_iff in Hgs as [Hpresent Hplayers].
  apply negb_true_iff in Hpresent.
  destruct (records_values _ Hplayers) as (everyone & Hev & Hall).
  destruct (records_values _ Hrec) as (views & Hviews & Hallv).
  exists views. split; [exact Hviews|].
  unfold isBettingRoundComplete.
  rewrite (get_prop_present _ _ Hpresent). cbn [bind].
  rewrite Hev. cbn [bind].
  rewrite (array_filter_pure is_active
             (fun p => truthy (prop_of p "is_active"))).
  2:{ eapply Forall_impl; [exact Hall|]. intros p Hp. unfold is_active.
      rewrite (get_prop_present _ _ Hp). reflexivity. }
  cbn [bind]. rewrite Hbet. cbn [bind]. rewrite Hviews. cbn [bind].
  rewrite (array_filter_pure still_betting still_in).
  2:{ eapply Forall_impl; [exact Hallv|]. intros p Hp.
      apply still_betting_still_in, Hp. }
  cbn [bind].
  destruct (length (List.filter still_in views) <=? 1)%nat; [reflexivity|].
  cbn [orb]. apply array_every_pure.
  apply Forall_forall. intros p Hp. apply list_elem_of_In in Hp.
  apply filter_In in Hp as [Hp _]. apply list_elem_of_In in Hp.
  rewrite Forall_forall in Hallv. specialize (Hallv p Hp).
  unfold has_acted, acted. rewrite (get_prop_present _ _ Hallv). reflexivity.
Qed.

(** The entries the code keeps are the contesting players. *)
Lemma filter_still_in_values (l : list (string * value)) :
  List.filter still_in (map snd l) = map snd (filter contests l).
Proof.
  induction l as [|[k p] l IH]; [reflexivity|].
  cbn [map List.filter snd]. rewrite filter_cons.
  destruct (decide (contests (k, p))) as [Hc|Hc];
    unfold contests in Hc; cbn [snd] in Hc.
  - rewrite Hc. cbn [map snd]. rewrite IH. reflexivity.
  - apply not_true_is_false in Hc. rewrite Hc. exact IH.
Qed.

Lemma contesting_entries (views : gmap string value) :
  map_to_list (contesting views) ≡ₚ filter contests (map_to_list views).
Proof.
  unfold contesting. rewrite map_filter_alt. apply map_to_list_to_map.
  apply (sublist_NoDup _ _ (NoDup_fst_map_to_list views)).
  apply fmap_sublist, sublist_filter.
Qed.

Lemma contesting_size (views : gmap string value) :
  size (contesting views)
  = length (List.filter still_in (map snd (map_to_list views))).
Proof.
  rewrite filter_still_in_values, length_map.
  rewrite <- length_map_to_list, contesting_entries. reflexivity.
Qed.

Lemma contesting_all_acted (views : gmap string value) :
  map_Forall (fun _ p => acted p = true) (contesting views)
  <-> forallb acted (List.filter still_in (map snd (map_to_list views))) = true.
Proof.
  rewrite map_Forall_to_list, contesting_entries, filter_still_in_values.
  rewrite forallb_forall, Forall_forall. split.
  - intros H p Hp. apply list_elem_of_In, list_elem_of_fmap in Hp.
    destruct Hp as ([k q] & -> & Hq). exact (H (k, q) Hq).
  - intros H [k q] Hq. cbn. apply H, list_elem_of_In, list_elem_of_fmap.
    exists (k, q). split; [reflexivity | exact Hq].
Qed.

Lemma records_intro (v : value) (l : list value) :
  Object_values v = Normal l -> Forall present l -> records v = true.
Proof.
  intros Hv Hall. unfold records. rewrite Hv.
  apply forallb_forall. intros x Hx. apply list_elem_of_In in Hx.
  rewrite Forall_forall in Hall. rewrite (Hall x Hx). reflexivity.
Qed.

Lemma array_filter_normal_present (f : value -> completion bool)
    (l kept : list value) :
  (forall x b, f x = Normal b -> present x) ->
  array_filter f l = Normal kept -> Forall present l.
Proof.
  intros Hf. revert kept.
  induction l as [|x l IH]; intros kept H; [constructor|].
  cbn [array_filter] in H.
  destruct (f x) as [b|e] eqn:Hx; [|discriminate]. cbn [bind] in H.
  destruct (array_filter f l) as [kept'|e]; [|discriminate].
  constructor; [exact (Hf _ _ Hx) | exact (IH _ eq_refl)].
Qed.

Lemma betting_players_views (gameState : value) (views : gmap string value) :
  present gameState ->
  prop_of (prop_of gameState "betting_state") "players" = VObj views ->
  betting_players gameState = Normal (VObj views).
Proof.
  intros Hp Hviews. unfold betting_players.
  rewrite (get_prop_present _ _ Hp). cbn [bind]. unfold opt_prop.
  destruct (is_nullish (prop_of gameState "betting_state")) eqn:E.
  - destruct (prop_of gameState "betting_state"); discriminate.
  - rewrite Hviews. reflexivity.
Qed.

(** The predicate returns only for a snapshot that holds player records
    and betting views that are records. *)
Lemma isBettingRoundComplete_normal
    (gameState : value) (views : gmap string value) (b : bool) :
  prop_of (prop_of gameState "betting_state") "players" = VObj views ->
  isBettingRoundComplete gameState = Normal b ->
  holds_player_records gameState = true /\ records (VObj views) = true.
Proof.
  intros Hviews H. unfold isBettingRoundComplete in H.
  destruct (get_prop gameState "players") as [players|e] eqn:Hplayers;
    [|discriminate].
  apply get_prop_normal in Hplayers as [Hp ->]. cbn [bind] in H.
  destruct (Object_values (prop_of gameState "players")) as [everyone|e]
    eqn:Hev; [|discriminate].
  cbn [bind] in H.
  destruct (array_filter is_active everyone) as [active|e] eqn:Hactive;
    [|discriminate].
  cbn [bind] in H.
  rewrite (betting_players_views _ _ Hp Hviews) in H.
  cbn [bind Object_values] in H.
  destruct (array_filter still_betting (map snd (map_to_list views)))
    as [kept|e] eqn:Hkept; [|discriminate].
  split.
  - unfold holds_player_records. rewrite Hp. cbn [negb andb].
    apply (records_intro _ _ Hev).
    apply (array_filter_normal_present is_active _ _) with (2 := Hactive).
    intros x c Hx. unfold is_active in Hx.
    destruct (get_prop x "is_active") eqn:E; [|discriminate].
    exact (proj1 (get_prop_normal _ _ _ E)).
  - apply (records_intro (VObj views) (map snd (map_to_list views)) eq_refl).
    apply (array_filter_normal_present still_betting _ _) with (2 := Hkept).
    intros x c Hx. unfold still_betting in Hx.
    destruct (get_prop x "has_folded") eqn:E; [|discriminate].
    exact (proj1 (get_prop_normal _ _ _ E)).
Qed.

(** C3.  Let [views] be the mapping under [betting_state.players], and
    call contesting the players that have neither folded nor gone all-in.
    For a snapshot that holds player records and whose betting views are
    records, [isBettingRoundComplete] returns, and it returns [true]
    exactly when at most one player is contesting or every contesting
    player has acted; in particular it returns [true] whenever at most
    one player is contesting, whatever the [has_acted] flags are.  On any
    snapshot at all, a result of [true] means that the round is settled
    in this sense. *)
Theorem betting_round_complete_iff
    (gameState : value) (views : gmap string value) :
  prop_of (prop_of gameState "betting_state") "players" = VObj views ->
  (holds_player_records gameState = true ->
   records (VObj views) = true ->
   exists b,
     isBettingRoundComplete gameState = Normal b
     /\ (b = true <-> round_settled views)
     /\ ((size (contesting views) <= 1)%nat -> b = true))
  /\ (isBettingRoundComplete gameState = Normal true -> round_settled views).
Proof.
  intros Hviews.
  assert (Hmain : holds_player_records gameState = true ->
                  records (VObj views) = true ->
                  exists b,
                    isBettingRoundComplete gameState = Normal b
                    /\ (b = true <-> round_settled views)
                    /\ ((size (contesting views) <= 1)%nat -> b = true)).
  { intros Hgs Hrec.
    assert (Hp : present gameState).
    { apply andb_true_iff in Hgs as [Hp _]. apply negb_true_iff in Hp.
      exact Hp. }
    destruct (isBettingRoundComplete_eval _ _ Hgs
                (betting_players_views _ _ Hp Hviews) Hrec)
      as (l & Hl & Heval).
    cbn [Object_values] in Hl. injection Hl as <-.
    eexists. split; [exact Heval|].
    unfold round_settled.
    rewrite contesting_all_acted, contesting_size.
    rewrite orb_true_iff, Nat.leb_le. split; [reflexivity|].
    intros H. left. exact H. }
  split; [exact Hmain|].
  intros Htrue.
  destruct (isBettingRoundComplete_normal _ _ _ Hviews Htrue) as [Hgs Hrec].
  destruct (Hmain Hgs Hrec) as (b & Hb & Hiff & _).
  rewrite Htrue in Hb. injection Hb as <-. apply Hiff. reflexivity.
Qed.

(** The theorem at Scenario D. *)
Lemma betting_round_complete_iff_witness :
  prop_of (prop_of Scenario.lone_contester "betting_state") "players"
  = VObj Scenario.lone_views
  /\ holds_player_records Scenario.lone_contester = true
  /\ records (VObj Scenario.lone_views) = true
  /\ exists b,
      isBettingRoundComplete Scenario.lone_contester = Normal b
      /\ (b = true <-> round_settled Scenario.lone_views)
      /\ ((size (contesting Scenario.lone_views) <= 1)%nat -> b = true).
Proof.
  split; [reflexivity|]. split; [reflexivity|]. split; [reflexivity|].
  exact (proj1 (betting_round_complete_iff Scenario.lone_contester
                  Scenario.lone_views eq_refl)
           eq_refl eq_refl).
Defined.

(** Scenario D: a single contester who has acted. *)
Example lone_contester_complete :
  isBettingRoundComplete Scenario.lone_contester = Normal true.
Proof. vm_compute. reflexivity. Qed.

(** C10.  For a snapshot that holds player records, when [betting_state]
    is absent, or its [players] is absent, or its [players] is the empty
    mapping, [isBettingRoundComplete] returns [true]. *)
Theorem no_betting_state_is_complete (gameState : value) :
  holds_player_records gameState = true ->
  is_nullish (prop_of gameState "betting_state") = true
  \/ is_nullish (prop_of (prop_of gameState "betting_state") "players") = true
  \/ prop_of (prop_of gameState "betting_state") "players" = VObj ∅ ->
  isBettingRoundComplete gameState = Normal true.
Proof.
  intros Hgs Habsent.
  assert (Hbet : betting_players gameState = Normal (VObj ∅)).
  { unfold betting_players.
    pose proof Hgs as Hgs'. apply andb_true_iff in Hgs' as [Hp _].
    apply negb_true_iff in Hp. rewrite (get_prop_present _ _ Hp). cbn [bind].
    unfold opt_prop, js_or.
    destruct (is_nullish (prop_of gameState "betting_state")) eqn:E;
      [reflexivity|].
    destruct Habsent as [H|[H|H]]; [discriminate| |rewrite H; reflexivity].
    destruct (prop_of (prop_of gameState "betting_state") "players");
      try discriminate; reflexivity. }
  destruct (isBettingRoundComplete_eval _ _ Hgs Hbet) as (l & Hl & Heval).
  { unfold records. cbn [Object_values]. rewrite map_to_list_empty.
    reflexivity. }
  cbn [Object_values] in Hl. rewrite map_to_list_empty in Hl.
  injection Hl as <-. exact Heval.
Qed.

(** The theorem at a snapshot taken before betting starts. *)
Lemma no_betting_state_is_complete_witness :
  holds_player_records Scenario.before_betting = true
  /\ is_nullish (prop_of Scenario.before_betting "betting_state") = true
  /\ isBettingRoundComplete Scenario.before_betting = Normal true.
Proof.
  split; [reflexivity|]. split; [reflexivity|].
  exact (no_betting_state_is_complete Scenario.before_betting eq_refl
           (or_introl eq_refl)).
Defined.

End Betting.

(* ===================================================================== *)
(** ** Game updates: what is stored, what is left alone                   *)
(* ===================================================================== *)

Section GameUpdateEffects.
Import Js GamePage Spec Shape.

(** The setter calls of the gate step. *)
Lemma track_gate_calls
    (playerId : string) (now : Z) (clock : string) (payload state : value) :
  get_prop payload "state" = Normal state ->
  fst (track_gate playerId now clock payload) = []
  \/ (reports_gate payload = true
      /\ fst (track_gate playerId now clock payload)
         = [SetCardHistory
              (record_transformation playerId now clock
                 (prop_of (prop_of payload "result") "gate_info")
                 (prop_of state "phase"))]).
Proof.
  intros Hstate.
  destruct (get_prop_normal _ _ _ Hstate) as [Hpayload _].
  unfold track_gate, reports_gate.
  rewrite (get_prop_present _ _ Hpayload). cbn [eval].
  destruct (truthy (opt_prop (prop_of payload "result") "gate_applied")
            && truthy (opt_prop (prop_of payload "result") "gate_info"))
    eqn:Hgate; [|left; reflexivity].
  pose proof Hgate as Hgate'.
  apply andb_true_iff in Hgate' as [Hg _].
  apply truthy_opt_prop in Hg as [Hres _].
  rewrite (get_prop_present _ _ Hres). cbn [eval].
  rewrite Hstate. cbn [eval].
  destruct (get_prop state "players") as [players|e]; [|left; reflexivity].
  cbn [eval].
  destruct (get_prop players playerId) as [me|e]; [|left; reflexivity].
  cbn [eval].
  destruct (truthy me); [|left; reflexivity].
  destruct (get_prop state "phase") as [phase|e] eqn:Hphase;
    [|left; reflexivity].
  apply get_prop_normal in Hphase as [_ ->].
  right. split; reflexivity.
Qed.

(** The setter calls of a game update: the snapshot and the cleared
    preview, then the popup if an outcome was resolved, then the history
    if a gate was reported.  Only the history updater depends on the
    time of the delivery. *)
Lemma on_game_update_calls (playerId : string) (payload state : value) :
  get_prop payload "state" = Normal state ->
  exists popup,
    (popup = []
     \/ exists info, popup = [SetWinnerInfo info; SetShowWinnerPopup true])
    /\ ((forall now clock,
            fst (on_game_update playerId now clock payload)
            = ([SetGameState state; SetGatePreview VNull] ++ popup)%list)
        \/ (reports_gate payload = true
            /\ forall now clock,
                fst (on_game_update playerId now clock payload)
                = ([SetGameState state; SetGatePreview VNull] ++ popup
                   ++ [SetCardHistory
                         (record_transformation playerId now clock
                            (prop_of (prop_of payload "result") "gate_info")
                            (prop_of state "phase"))])%list)).
Proof.
  intros Hstate. unfold on_game_update. rewrite Hstate. cbn [eval].
  destruct (get_prop state "phase") as [phase|e] eqn:Hphase; cbn [eval].
  2:{ exists []. split; [left; reflexivity|]. left. reflexivity. }
  assert (Hpop : exists popup,
    (popup = []
     \/ exists info, popup = [SetWinnerInfo info; SetShowWinnerPopup true])
    /\ ((if strict_eq phase (VStr "complete")
         then show_winner playerId payload else done)
        = (popup, Normal ())
        \/ (popup = []
            /\ exists e,
                (if strict_eq phase (VStr "complete")
                 then show_winner playerId payload else done)
                = ([], Throw e)))).
  { destruct (strict_eq phase (VStr "complete")).
    - rewrite show_winner_trace.
      destruct (resolve_winner playerId payload) as [[info|]|e].
      + eexists. split; [right; eexists; reflexivity|]. left. reflexivity.
      + exists []. split; [left; reflexivity|]. left. reflexivity.
      + exists []. split; [left; reflexivity|]. right. split; [reflexivity|].
        exists e. reflexivity.
    - exists []. split; [left; reflexivity|]. left. reflexivity. }
  destruct Hpop as (popup & Hshape & [Hok|[-> [e Hthrow]]]).
  - exists popup. split; [exact Hshape|]. rewrite Hok.
    unfold andthen, call. cbn [fst snd].
    assert (Hcases :
      (forall now clock, fst (track_gate playerId now clock payload) = [])
      \/ (reports_gate payload = true
          /\ forall now clock,
              fst (track_gate playerId now clock payload)
              = [SetCardHistory
                   (record_transformation playerId now clock
                      (prop_of (prop_of payload "result") "gate_info")
                      (prop_of state "phase"))])).
    { destruct (track_gate_calls playerId 0 "" payload state Hstate)
        as [Hnone|[Hrep Hone]].
      - left. intros now clock.
        destruct (track_gate_calls playerId now clock payload state Hstate)
          as [H|[_ H]]; [exact H|].
        exfalso. revert Hnone H. unfold track_gate, eval.
        repeat match goal with
               | |- context [match ?c with _ => _ end] => destruct c
               end; cbn [fst call done]; congruence.
      - right. split; [exact Hrep|]. intros now clock.
        destruct (track_gate_calls playerId now clock payload state Hstate)
          as [H|[_ H]]; [|exact H].
        exfalso. revert Hone H. unfold track_gate, eval.
        repeat match goal with
               | |- context [match ?c with _ => _ end] => destruct c
               end; cbn [fst call done]; congruence. }
    destruct Hcases as [Hnone|[Hrep Hone]].
    + left. intros now clock. rewrite Hnone, app_nil_r. reflexivity.
    + right. split; [exact Hrep|]. intros now clock. rewrite Hone.
      reflexivity.
  - exists []. split; [left; reflexivity|]. left. intros now clock.
    rewrite Hthrow. reflexivity.
Qed.

(** The history after a game update: untouched, or extended by the
    updater for the reported gate. *)
Lemma cardHistory_after_update
    (playerId : string) (now : Z) (clock : string) (payload : value)
    (st : State) :
  cardHistory (apply_effects st (fst (on_game_update playerId now clock payload)))
  = cardHistory st
  \/ (reports_gate payload = true
      /\ present payload
      /\ cardHistory
           (apply_effects st (fst (on_game_update playerId now clock payload)))
         = record_transformation playerId now clock
             (prop_of (prop_of payload "result") "gate_info")
             (prop_of (prop_of payload "state") "phase")
             (cardHistory st)).
Proof.
  destruct (get_prop payload "state") as [state|e] eqn:Hstate.
  - destruct (get_prop_normal _ _ _ Hstate) as [Hpayload ->].
    destruct (on_game_update_calls playerId payload _ Hstate)
      as (popup & [->|[info ->]] & [Hes|[Hrep Hes]]);
      rewrite (Hes now clock); cbn; auto.
  - left. unfold on_game_update. rewrite Hstate. reflexivity.
Qed.

(** X1.  Every game update whose payload can be read stores the
    delivered snapshot and clears the gate preview, also when the
    handler goes on to throw while resolving the outcome or tracking a
    gate. *)
Theorem game_update_stores_snapshot
    (playerId : string) (now : Z) (clock : string) (payload state : value)
    (st : State) :
  get_prop payload "state" = Normal state ->
  gameState (apply_effects st (fst (on_game_update playerId now clock payload)))
  = state
  /\ gatePreview
       (apply_effects st (fst (on_game_update playerId now clock payload)))
     = VNull.
Proof.
  intros Hstate.
  destruct (on_game_update_calls playerId payload _ Hstate)
    as (popup & [->|[info ->]] & [Hes|[Hrep Hes]]);
    rewrite (Hes now clock); split; reflexivity.
Qed.

(** The theorem at a delivery on which the handler throws. *)
Lemma game_update_stores_snapshot_witness :
  get_prop Scenario.no_winners "state"
  = Normal (prop_of Scenario.no_winners "state")
  /\ snd (on_game_update "p1" 0 "12:00:00" Scenario.no_winners)
     = Throw TypeError
  /\ gameState
       (apply_effects initial
          (fst (on_game_update "p1" 0 "12:00:00" Scenario.no_winners)))
     = prop_of Scenario.no_winners "state"
  /\ gatePreview
       (apply_effects initial
          (fst (on_game_update "p1" 0 "12:00:00" Scenario.no_winners)))
     = VNull.
Proof.
  split; [reflexivity|]. split; [reflexivity|].
  exact (game_update_stores_snapshot "p1" 0 "12:00:00" Scenario.no_winners
           (prop_of Scenario.no_winners "state") initial eq_refl).
Defined.

Lemma on_game_update_emits_nothing
    (playerId : string) (now : Z) (clock : string) (payload : value) :
  emitted (fst (on_game_update playerId now clock payload)) = [].
Proof.
  destruct (get_prop payload "state") as [state|e] eqn:Hstate.
  - destruct (on_game_update_calls playerId payload _ Hstate)
      as (popup & [->|[info ->]] & [Hes|[Hrep Hes]]);
      rewrite (Hes now clock); reflexivity.
  - unfold on_game_update. rewrite Hstate. reflexivity.
Qed.

(** X2.  A game update never touches the held lobby, the error or the
    loading flag, and it sends nothing on the socket. *)
Theorem game_update_frame
    (playerId : string) (now : Z) (clock : string) (payload : value)
    (st : State) :
  lobby (apply_effects st (fst (on_game_update playerId now clock payload)))
  = lobby st
  /\ error (apply_effects st (fst (on_game_update playerId now clock payload)))
     = error st
  /\ loading
       (apply_effects st (fst (on_game_update playerId now clock payload)))
     = loading st
  /\ emitted (fst (on_game_update playerId now clock payload)) = [].
Proof.
  destruct (get_prop payload "state") as [state|e] eqn:Hstate.
  - destruct (on_game_update_calls playerId payload _ Hstate)
      as (popup & [->|[info ->]] & [Hes|[Hrep Hes]]);
      rewrite (Hes now clock); repeat split; reflexivity.
  - unfold on_game_update. rewrite Hstate. repeat split; reflexivity.
Qed.

Lemma record_transformation_appends
    (playerId : string) (now : Z) (clock : string) (gateInfo phase : value)
    (prev : gmap string (list Entry.t)) :
  (forall player,
      player <> playerId ->
      record_transformation playerId now clock gateInfo phase prev !! player
      = prev !! player)
  /\ exists added,
      (length added <= 1)%nat
      /\ record_transformation playerId now clock gateInfo phase prev
         !! playerId
         = Some (default [] (prev !! playerId) ++ added)%list.
Proof.
  unfold record_transformation.
  destruct (find (same_transformation gateInfo phase)
              (default [] (prev !! playerId))) as [e|]; split.
  - intros player Hne. apply lookup_insert_ne. congruence.
  - exists []. split; [cbn; lia|]. rewrite app_nil_r. apply lookup_insert_eq.
  - intros player Hne. apply lookup_insert_ne. congruence.
  - eexists. split; [|apply lookup_insert_eq]. cbn. lia.
Qed.

(** X3.  The transformation history is append-only and holds the
    viewer's records only: a game update leaves the records of every
    other player as they were, keeps the viewer's records in place and
    in order, and adds at most one record after them; without a gate
    report it leaves the whole history as it was. *)
Theorem history_is_append_only
    (playerId : string) (now : Z) (clock : string) (payload : value)
    (st : State) :
  (forall player,
      player <> playerId ->
      cardHistory
        (apply_effects st (fst (on_game_update playerId now clock payload)))
      !! player
      = cardHistory st !! player)
  /\ (exists added,
         (length added <= 1)%nat
         /\ default []
              (cardHistory
                 (apply_effects st
                    (fst (on_game_update playerId now clock payload)))
               !! playerId)
            = (default [] (cardHistory st !! playerId) ++ added)%list)
  /\ (reports_gate payload = false ->
      cardHistory
        (apply_effects st (fst (on_game_update playerId now clock payload)))
      = cardHistory st).
Proof.
  destruct (cardHistory_after_update playerId now clock payload st)
    as [Hsame|(Hrep & _ & Hrec)].
  - rewrite Hsame. split; [reflexivity|]. split; [|reflexivity].
    exists []. split; [cbn; lia|]. rewrite app_nil_r. reflexivity.
  - rewrite Hrec.
    destruct (record_transformation_appends playerId now clock
                (prop_of (prop_of payload "result") "gate_info")
                (prop_of (prop_of payload "state") "phase")
                (cardHistory st)) as [Hothers (added & Hlen & Hmine)].
    split; [exact Hothers|]. split.
    + exists added. split; [exact Hlen|]. rewrite Hmine. reflexivity.
    + intros Hno. congruence.
Qed.

(** X4.  Delivering the same game update a second time changes nothing
    on the page, provided every gate it reports is fully keyed: the
    snapshot, the popup and the history are as after the first
    delivery. *)
Theorem redelivery_changes_nothing
    (lobbyId playerId : string) (now now' : Z) (clock clock' : string)
    (payload : value) (p : Page) :
  well_keyed payload ->
  step lobbyId playerId
    (step lobbyId playerId p (GameUpdate now clock payload))
    (GameUpdate now' clock' payload)
  = step lobbyId playerId p (GameUpdate now clock payload).
Proof.
  intros Hkey. cbn [step]. unfold when_listening.
  destruct (listening p) eqn:Hlisten; [|rewrite Hlisten; reflexivity].
  cbn [deliver listening]. unfold deliver.
  cbn [GamePage.state retryTimer listening sent].
  destruct (get_prop payload "state") as [state|e] eqn:Hstate.
  - destruct (get_prop_normal _ _ _ Hstate) as [_ Hst].
    destruct (on_game_update_calls playerId payload _ Hstate)
      as (popup & [->|[info ->]] & [Hes|[Hrep Hes]]);
      rewrite (Hes now clock), (Hes now' clock'); cbn;
      rewrite ?Hlisten, ?app_nil_r; try reflexivity.
    + rewrite Hst.
      rewrite (record_transformation_idempotent _ _ _ _ _ _ _ _
                 (Hkey Hrep)).
      reflexivity.
    + rewrite Hst.
      rewrite (record_transformation_idempotent _ _ _ _ _ _ _ _
                 (Hkey Hrep)).
      reflexivity.
  - unfold on_game_update. rewrite Hstate. cbn.
    rewrite ?Hlisten, ?app_nil_r. reflexivity.
Qed.

(** The theorem at a fully reported gate delivered twice. *)
Lemma redelivery_changes_nothing_witness :
  well_keyed Scenario.gate_in_full
  /\ step "L1" "p1"
       (step "L1" "p1" (step "L1" "p1" unopened Open)
          (GameUpdate 1000 "12:00:00" Scenario.gate_in_full))
       (GameUpdate 2000 "12:00:01" Scenario.gate_in_full)
     = step "L1" "p1" (step "L1" "p1" unopened Open)
         (GameUpdate 1000 "12:00:00" Scenario.gate_in_full).
Proof.
  assert (Hkey : well_keyed Scenario.gate_in_full).
  { intros _. repeat split; reflexivity. }
  split; [exact Hkey|].
  exact (redelivery_changes_nothing "L1" "p1" 1000 2000 "12:00:00" "12:00:01"
           Scenario.gate_in_full (step "L1" "p1" unopened Open) Hkey).
Defined.

End GameUpdateEffects.

(* ===================================================================== *)
(** ** The session as a whole                                             *)
(* ===================================================================== *)

Section Session.
Import Js GamePage Spec Shape.

Lemma on_lobby_update_calls (lobbyId : string) (lobbyData : value) :
  fst (on_lobby_update lobbyId lobbyData) = []
  \/ fst (on_lobby_update lobbyId lobbyData) = [SetLobby lobbyData].
Proof.
  unfold on_lobby_update, eval.
  destruct (get_prop lobbyData "lobby_id") as [lobby_id|e]; [|left; reflexivity].
  destruct (strict_eq lobby_id (VStr lobbyId)); [right|left]; reflexivity.
Qed.

Lemma on_error_calls (err : value) :
  fst (on_error err) = [] \/ exists v, fst (on_error err) = [SetError v].
Proof.
  unfold on_error, eval.
  destruct (get_prop err "detail") as [detail|e]; [|left; reflexivity].
  destruct (negb (strict_eq detail (VStr "Lobby not found")));
    [|left; reflexivity].
  destruct (strict_eq detail (VStr "Lobby already in game"));
    right; eexists; reflexivity.
Qed.

Lemma retry_callback_calls (lobbyId playerId : string) (captured : value) :
  fst (retry_callback lobbyId playerId captured) = []
  \/ fst (retry_callback lobbyId playerId captured)
     = [Emit "join"
          (obj [("lobby_id", VStr lobbyId); ("player_id", VStr playerId)])].
Proof.
  unfold retry_callback, eval.
  destruct (negb (truthy captured)); [right; reflexivity|].
  destruct (includes captured "already started") as [permanent|e];
    [|left; reflexivity].
  destruct (negb permanent); [right|left]; reflexivity.
Qed.

(** Deliveries and clicks leave the timer, the listeners and the socket
    alone. *)
Lemma delivery_keeps_session
    (lobbyId playerId : string) (p : Page) (ev : event) :
  is_delivery ev = true ->
  retryTimer (step lobbyId playerId p ev) = retryTimer p
  /\ listening (step lobbyId playerId p ev) = listening p
  /\ sent (step lobbyId playerId p ev) = sent p.
Proof.
  destruct ev; try discriminate; intros _; cbn [step];
    unfold when_listening; try (repeat split; reflexivity);
    (destruct (listening p) eqn:Hl; [|repeat split; assumption || reflexivity]);
    unfold deliver; cbn [retryTimer listening sent];
    (split; [reflexivity|]); (split; [exact Hl|]).
  - rewrite on_game_update_emits_nothing. apply app_nil_r.
  - destruct (on_lobby_update_calls lobbyId lobbyData) as [->| ->];
      apply app_nil_r.
  - destruct (on_error_calls err) as [->|[v ->]]; apply app_nil_r.
  - apply app_nil_r.
Qed.

Lemma deliveries_keep_session
    (lobbyId playerId : string) (evs : list event) (p : Page) :
  Forall (fun ev => is_delivery ev = true) evs ->
  retryTimer (run lobbyId playerId p evs) = retryTimer p
  /\ sent (run lobbyId playerId p evs) = sent p.
Proof.
  intros Hall. revert p. unfold run.
  induction Hall as [|ev evs Hev _ IH]; intros p; [split; reflexivity|].
  cbn [fold_left]. destruct (IH (step lobbyId playerId p ev)) as [-> ->].
  destruct (delivery_keeps_session lobbyId playerId p ev Hev)
    as (-> & _ & ->).
  split; reflexivity.
Qed.

Lemma joins_app (l l' : list (string * value)) :
  joins (l ++ l') = (joins l + joins l')%nat.
Proof. unfold joins. rewrite filter_app, length_app. reflexivity. Qed.

Lemma joins_joinRoom (lobbyId playerId : string) :
  joins (emitted (fst (joinRoom lobbyId playerId))) = 1%nat.
Proof. reflexivity. Qed.

(** X5.  Whether the retry is sent is settled by the error the page
    held when it was opened, and by nothing that is delivered before the
    timer runs out: opened without an error, the page sends the join
    twice, even when a permanent error arrived in between; opened with
    an "already started" error, it sends the join once. *)
Theorem retry_decided_at_open
    (lobbyId playerId : string) (p : Page) (evs : list event) :
  Forall (fun ev => is_delivery ev = true) evs ->
  (truthy (error (state p)) = false ->
   joins (sent (run lobbyId playerId (step lobbyId playerId p Open)
                  (evs ++ [RetryTimerExpires])))
   = (joins (sent p) + 2)%nat)
  /\ (forall msg,
         error (state p) = VStr msg ->
         string_includes "already started" msg = true ->
         joins (sent (run lobbyId playerId (step lobbyId playerId p Open)
                        (evs ++ [RetryTimerExpires])))
         = (joins (sent p) + 1)%nat).
Proof.
  intros Hall.
  assert (Hrun : forall q,
    run lobbyId playerId q (evs ++ [RetryTimerExpires])
    = step lobbyId playerId (run lobbyId playerId q evs) RetryTimerExpires).
  { intros q. unfold run. rewrite fold_left_app. reflexivity. }
  rewrite Hrun.
  destruct (deliveries_keep_session lobbyId playerId evs
              (step lobbyId playerId p Open) Hall) as [Htimer Hsent].
  set (q := run lobbyId playerId (step lobbyId playerId p Open) evs) in *.
  assert (Hexpiry :
    sent (step lobbyId playerId q RetryTimerExpires)
    = (sent p
       ++ emitted (fst (joinRoom lobbyId playerId))
       ++ emitted (fst (retry_callback lobbyId playerId (error (state p)))))%list).
  { cbn [step]. rewrite Htimer. cbn [step retryTimer sent deliver].
    rewrite Hsent. cbn [step sent deliver]. rewrite <- app_assoc.
    reflexivity. }
  rewrite Hexpiry, !joins_app, joins_joinRoom. split.
  - intros Hfalsy. unfold retry_callback. rewrite Hfalsy.
    cbn [negb]. rewrite joins_joinRoom. lia.
  - intros msg Herr Hperm. rewrite Herr. unfold retry_callback.
    cbn [truthy]. destruct (negb (String.eqb msg "")) eqn:Hne.
    + cbn [negb includes eval]. rewrite Hperm.
      cbn [negb].
      change (joins (emitted (fst done))) with 0%nat. lia.
    + apply negb_false_iff, String.eqb_eq in Hne. subst msg.
      discriminate Hperm.
Qed.

(** The theorem at a permanent error that arrives before the expiry. *)
Lemma retry_decided_at_open_witness :
  Forall (fun ev => is_delivery ev = true)
    [SocketError Scenario.already_in_game]
  /\ truthy (error (state unopened)) = false
  /\ joins (sent (run "L1" "p1" (step "L1" "p1" unopened Open)
                    ([SocketError Scenario.already_in_game]
                     ++ [RetryTimerExpires])))
     = (joins (sent unopened) + 2)%nat.
Proof.
  assert (H : Forall (fun ev => is_delivery ev = true)
                [SocketError Scenario.already_in_game]).
  { repeat constructor. }
  split; [exact H|]. split; [reflexivity|].
  exact (proj1 (retry_decided_at_open "L1" "p1" unopened
                  [SocketError Scenario.already_in_game] H) eq_refl).
Defined.

Lemma retry_callback_joins (lobbyId playerId : string) (captured : value) :
  (joins (emitted (fst (retry_callback lobbyId playerId captured))) <= 1)%nat.
Proof.
  destruct (retry_callback_calls lobbyId playerId captured) as [->| ->];
    [cbn; lia|].
  change (joins (emitted (fst (joinRoom lobbyId playerId))) <= 1)%nat.
  rewrite joins_joinRoom. lia.
Qed.

(** A step other than opening the page sends a join only by spending
    the retry timer. *)
Lemma step_spends_timer
    (lobbyId playerId : string) (p : Page) (ev : event) :
  is_open ev = false ->
  (joins (sent (step lobbyId playerId p ev))
   + pending (step lobbyId playerId p ev)
   <= joins (sent p) + pending p)%nat.
Proof.
  intros Hev. unfold pending. destruct (is_delivery ev) eqn:Hdel.
  - destruct (delivery_keeps_session lobbyId playerId p ev Hdel)
      as (Htimer & _ & Hsent).
    rewrite Htimer, Hsent. apply Nat.le_refl.
  - destruct ev; try discriminate; cbn [step].
    + destruct (retryTimer p) as [captured|] eqn:Htimer;
        cbn [sent retryTimer deliver]; rewrite ?Htimer;
        [|apply Nat.le_refl].
      rewrite joins_app.
      pose proof (retry_callback_joins lobbyId playerId captured). lia.
    + cbn [sent retryTimer]. destruct (retryTimer p); lia.
Qed.

(** X6.  One open sends the join at most twice: once at once and at most
    once more when the timer runs out, whatever else happens to the page
    and however often the timer event or the cleanup is replayed. *)
Theorem at_most_one_retry
    (lobbyId playerId : string) (p : Page) (evs : list event) :
  Forall (fun ev => is_open ev = false) evs ->
  (joins (sent p) + 1
   <= joins (sent (run lobbyId playerId (step lobbyId playerId p Open) evs))
   <= joins (sent p) + 2)%nat.
Proof.
  intros Hall.
  assert (Hbound : forall q,
    (joins (sent q)
     <= joins (sent (run lobbyId playerId q evs))
     <= joins (sent q) + pending q)%nat).
  { unfold run. induction Hall as [|ev evs Hev _ IH]; intros q.
    - cbn [fold_left]. lia.
    - cbn [fold_left].
      specialize (IH (step lobbyId playerId q ev)).
      pose proof (step_spends_timer lobbyId playerId q ev Hev) as Hstep.
      assert (Hmono : (joins (sent q)
                       <= joins (sent (step lobbyId playerId q ev)))%nat).
      { destruct (is_delivery ev) eqn:Hdel.
        - destruct (delivery_keeps_session lobbyId playerId q ev Hdel)
            as (_ & _ & ->). lia.
        - destruct ev; try discriminate; cbn [step].
          + destruct (retryTimer q); [|apply Nat.le_refl].
            cbn [sent deliver]. rewrite joins_app. lia.
          + cbn [sent]. lia. }
      lia. }
  specialize (Hbound (step lobbyId playerId p Open)).
  assert (Hsent : sent (step lobbyId playerId p Open)
                  = (sent p ++ emitted (fst (joinRoom lobbyId playerId)))%list)
    by reflexivity.
  assert (Hpending : pending (step lobbyId playerId p Open) = 1%nat)
    by reflexivity.
  rewrite Hsent, Hpending, joins_app, joins_joinRoom in Hbound. lia.
Qed.

(** The theorem at a session where the timer event is replayed. *)
Lemma at_most_one_retry_witness :
  Forall (fun ev => is_open ev = false)
    [RetryTimerExpires; RetryTimerExpires; Close; RetryTimerExpires]
  /\ (joins (sent unopened) + 1
      <= joins (sent (run "L1" "p1" (step "L1" "p1" unopened Open)
                        [RetryTimerExpires; RetryTimerExpires; Close;
                         RetryTimerExpires]))
      <= joins (sent unopened) + 2)%nat.
Proof.
  assert (H : Forall (fun ev => is_open ev = false)
                [RetryTimerExpires; RetryTimerExpires; Close;
                 RetryTimerExpires]).
  { repeat constructor. }
  split; [exact H|].
  exact (at_most_one_retry "L1" "p1" unopened _ H).
Defined.

(** X7.  After the cleanup the page reacts to nothing that the socket or
    the timer can still produce: game updates, lobby updates, errors,
    previews and the timer leave state, timer and socket as the cleanup
    left them. *)
Theorem closed_page_is_inert
    (lobbyId playerId : string) (p : Page) (evs : list event) :
  Forall (fun ev => is_open ev = false /\ ev <> DismissPopup) evs ->
  run lobbyId playerId (step lobbyId playerId p Close) evs
  = step lobbyId playerId p Close.
Proof.
  intros Hall. unfold run.
  induction Hall as [|ev evs [Hopen Hclick] _ IH]; [reflexivity|].
  cbn [fold_left].
  assert (Hstep : step lobbyId playerId (step lobbyId playerId p Close) ev
                  = step lobbyId playerId p Close).
  { destruct ev; try discriminate; try congruence; reflexivity. }
  rewrite Hstep. exact IH.
Qed.

(** The theorem at a page closed before a terminal delivery. *)
Lemma closed_page_is_inert_witness :
  Forall (fun ev => is_open ev = false /\ ev <> DismissPopup)
    [GameUpdate 0 "12:00:00" Scenario.flush_win; RetryTimerExpires]
  /\ run "L1" "p1" (step "L1" "p1" (step "L1" "p1" unopened Open) Close)
       [GameUpdate 0 "12:00:00" Scenario.flush_win; RetryTimerExpires]
     = step "L1" "p1" (step "L1" "p1" unopened Open) Close.
Proof.
  assert (H : Forall (fun ev => is_open ev = false /\ ev <> DismissPopup)
                [GameUpdate 0 "12:00:00" Scenario.flush_win;
                 RetryTimerExpires]).
  { repeat constructor; discriminate. }
  split; [exact H|].
  exact (closed_page_is_inert "L1" "p1" (step "L1" "p1" unopened Open) _ H).
Defined.

(** Only a game update can change the history. *)
Lemma step_history
    (lobbyId playerId : string) (p : Page) (ev : event) :
  cardHistory (state (step lobbyId playerId p ev)) = cardHistory (state p)
  \/ exists now clock payload,
      ev = GameUpdate now clock payload
      /\ cardHistory (state (step lobbyId playerId p ev))
         = cardHistory
             (apply_effects (state p)
                (fst (on_game_update playerId now clock payload))).
Proof.
  destruct ev; cbn [step]; unfold when_listening;
    try (left; reflexivity);
    try (destruct (listening p); [|left; reflexivity];
         cbn [state deliver]).
  - right. do 3 eexists. split; reflexivity.
  - left. destruct (on_lobby_update_calls lobbyId lobbyData) as [->| ->];
      reflexivity.
  - left. destruct (on_error_calls err) as [->|[v ->]]; reflexivity.
  - left. reflexivity.
  - left. destruct (retryTimer p) as [captured|]; [|reflexivity].
    cbn [state deliver].
    destruct (retry_callback_calls lobbyId playerId captured) as [->| ->];
      reflexivity.
Qed.

(** X8.  Over any run of the page in which every reported gate is fully
    keyed, no two records of a player ever share a content key. *)
Theorem ledger_keys_stay_distinct
    (lobbyId playerId : string) (evs : list event) (p : Page) :
  Forall well_keyed_event evs ->
  keys_distinct (cardHistory (state p)) ->
  keys_distinct (cardHistory (state (run lobbyId playerId p evs))).
Proof.
  intros Hall. revert p. unfold run.
  induction Hall as [|ev evs Hev _ IH]; intros p Hp; [exact Hp|].
  cbn [fold_left]. apply IH.
  destruct (step_history lobbyId playerId p ev)
    as [->|(now & clock & payload & -> & ->)]; [exact Hp|].
  destruct (cardHistory_after_update playerId now clock payload (state p))
    as [->|(Hrep & _ & ->)]; [exact Hp|].
  apply record_transformation_keys_distinct; [|exact Hp].
  exact (Hev Hrep).
Qed.

(** The theorem at a fully reported gate delivered twice. *)
Lemma ledger_keys_stay_distinct_witness :
  Forall well_keyed_event
    (Scenario.gate_delivered_twice Scenario.gate_in_full)
  /\ keys_distinct (cardHistory (state unopened))
  /\ keys_distinct
       (cardHistory
          (state (run "L1" "p1" unopened
                    (Scenario.gate_delivered_twice Scenario.gate_in_full)))).
Proof.
  assert (Hkey : well_keyed Scenario.gate_in_full).
  { intros _. repeat split; reflexivity. }
  assert (Hall : Forall well_keyed_event
                   (Scenario.gate_delivered_twice Scenario.gate_in_full)).
  { repeat constructor; exact Hkey. }
  assert (Hempty : keys_distinct (cardHistory (state unopened))).
  { intros player entries H. cbn in H. rewrite lookup_empty in H.
    discriminate. }
  split; [exact Hall|]. split; [exact Hempty|].
  exact (ledger_keys_stay_distinct "L1" "p1" _ unopened Hall Hempty).
Defined.

(** X9.  Which errors surface.  The handler calls no setter exactly when
    the error's detail is "Lobby not found" (or the error itself is
    missing, in which case it throws); a detail of "Lobby already in
    game" is stored as the fixed message, which the retry test
    recognises as permanent; every other detail is stored as it is. *)
Theorem error_surfacing (err : value) :
  (fst (on_error err) = [] <->
   is_nullish err = true \/ prop_of err "detail" = VStr "Lobby not found")
  /\ (is_nullish err = false ->
      prop_of err "detail" = VStr "Lobby already in game" ->
      exists msg,
        fst (on_error err) = [SetError (VStr msg)]
        /\ string_includes "already started" msg = true)
  /\ (is_nullish err = false ->
      prop_of err "detail" <> VStr "Lobby not found" ->
      prop_of err "detail" <> VStr "Lobby already in game" ->
      fst (on_error err) = [SetError (prop_of err "detail")]).
Proof.
  unfold on_error, get_prop.
  destruct (is_nullish err) eqn:Hnull; cbn [eval].
  { split; [split; auto|]. split; discriminate. }
  destruct (strict_eq (prop_of err "detail") (VStr "Lobby not found"))
    eqn:Hnot_found; cbn [negb].
  - apply strict_eq_string in Hnot_found.
    split; [split; auto|]. split.
    + intros _ H. rewrite H in Hnot_found. discriminate.
    + intros _ H. contradiction.
  - apply strict_eq_string_false in Hnot_found.
    destruct (strict_eq (prop_of err "detail") (VStr "Lobby already in game"))
      eqn:Hstarted.
    + apply strict_eq_string in Hstarted. split; [|split].
      * split; [discriminate|]. intros [H|H]; [discriminate|contradiction].
      * intros _ _. eexists. split; reflexivity.
      * intros _ _ H. contradiction.
    + apply strict_eq_string_false in Hstarted. split; [|split].
      * split; [discriminate|]. intros [H|H]; [discriminate|contradiction].
      * intros _ H. contradiction.
      * intros _ _ _. reflexivity.
Qed.

End Session.

(* ===================================================================== *)
(** ** When the betting-round predicate returns                           *)
(* ===================================================================== *)

Section BettingErrors.
Import Js GamePage Spec.

(** X10.  [isBettingRoundComplete] returns exactly on the snapshots that
    hold player records and whose betting views, taken from
    [betting_state?.players || {}], are records too; on every other
    snapshot it throws a [TypeError]. *)
Theorem betting_round_returns_iff (gameState : value) :
  throws (isBettingRoundComplete gameState) = false
  <-> holds_player_records gameState = true
      /\ records
           (js_or (opt_prop (prop_of gameState "betting_state") "players")
              (obj []))
         = true.
Proof.
  split.
  - intros H. unfold isBettingRoundComplete in H.
    destruct (get_prop gameState "players") as [players|e] eqn:Hplayers;
      [|discriminate].
    apply get_prop_normal in Hplayers as [Hp ->]. cbn [bind] in H.
    destruct (Object_values (prop_of gameState "players")) as [everyone|e]
      eqn:Hev; [|discriminate].
    cbn [bind] in H.
    destruct (array_filter is_active everyone) as [active|e] eqn:Hactive;
      [|discriminate].
    cbn [bind] in H. unfold betting_players in H.
    rewrite (get_prop_present _ _ Hp) in H. cbn [bind] in H.
    destruct (Object_values
                (js_or (opt_prop (prop_of gameState "betting_state") "players")
                   (obj []))) as [views|e] eqn:Hviews; [|discriminate].
    cbn [bind] in H.
    destruct (array_filter still_betting views) as [kept|e] eqn:Hkept;
      [|discriminate].
    split.
    + unfold holds_player_records. rewrite Hp. cbn [negb andb].
      apply (records_intro _ _ Hev).
      apply (array_filter_normal_present is_active _ _) with (2 := Hactive).
      intros x c Hx. unfold is_active in Hx.
      destruct (get_prop x "is_active") eqn:E; [|discriminate].
      exact (proj1 (get_prop_normal _ _ _ E)).
    + apply (records_intro _ _ Hviews).
      apply (array_filter_normal_present still_betting _ _) with (2 := Hkept).
      intros x c Hx. unfold still_betting in Hx.
      destruct (get_prop x "has_folded") eqn:E; [|discriminate].
      exact (proj1 (get_prop_normal _ _ _ E)).
  - intros [Hgs Hrec].
    assert (Hp : present gameState).
    { apply andb_true_iff in Hgs as [Hp _]. apply negb_true_iff in Hp.
      exact Hp. }
    assert (Hbet : betting_players gameState
                   = Normal
                       (js_or
                          (opt_prop (prop_of gameState "betting_state")
                             "players")
                          (obj []))).
    { unfold betting_players. rewrite (get_prop_present _ _ Hp).
      reflexivity. }
    destruct (isBettingRoundComplete_eval _ _ Hgs Hbet Hrec)
      as (views & _ & ->).
    reflexivity.
Qed.

End BettingErrors.

(* ===================================================================== *)
(** ** What the winner popup shows                                        *)
(* ===================================================================== *)

Section PopupContents.
Import Js GamePage Spec.

Implicit Types (payload state result w : value) (ws : list value).

Lemma popup_state_after_complete
    (lobbyId playerId : string) (now : Z) (clock : string) (p : Page)
    payload state (info : WinnerInfo) :
  listening p = true ->
  get_prop payload "state" = Normal state ->
  get_prop state "phase" = Normal (VStr "complete") ->
  resolve_winner playerId payload = Normal (Some info) ->
  winnerInfo
    (GamePage.state (step lobbyId playerId p (GameUpdate now clock payload)))
  = Some info
  /\ showWinnerPopup
       (GamePage.state
          (step lobbyId playerId p (GameUpdate now clock payload)))
     = true.
Proof.
  intros Hlisten Hstate Hphase Hres.
  cbn [step]. unfold when_listening. rewrite Hlisten.
  cbn [deliver GamePage.state].
  exact (popup_after_complete playerId now clock payload state info
           (GamePage.state p) Hstate Hphase Hres).
Qed.

Lemma plain_identifier_present w :
  plain_identifier (prop_of w "player_id") = true -> present w.
Proof.
  unfold present. destruct w; try reflexivity; discriminate.
Qed.

Lemma mapping_present (v : value) : mapping v = true -> present v.
Proof.
  unfold present. destruct v; try reflexivity; discriminate.
Qed.

(** X11.  A tie is announced as such to everybody.  A terminal delivery
    whose winners list has two or more entries that name their player by
    a player identifier (no auto-win, [players] a mapping) leaves the
    popup switched on over an outcome for which the popup block has the
    headline "Tie Game!", also for a viewer who is among the winners,
    one line per winner in the order of the list, and the caption "Split
    Pot" over the winnings of the first entry of the list alone. *)
Theorem tie_popup
    (lobbyId playerId : string) (now : Z) (clock : string) (p : Page)
    payload state result w w' ws :
  listening p = true ->
  get_prop payload "state" = Normal state ->
  get_prop state "phase" = Normal (VStr "complete") ->
  get_prop payload "result" = Normal result ->
  signals_auto_win result = false ->
  opt_prop result "winners" = VArr (w :: w' :: ws) ->
  Forall (fun x => plain_identifier (prop_of x "player_id") = true)
    (w :: w' :: ws) ->
  mapping (prop_of state "players") = true ->
  exists info,
    winnerInfo
      (GamePage.state
         (step lobbyId playerId p (GameUpdate now clock payload)))
    = Some info
    /\ showWinnerPopup
         (GamePage.state
            (step lobbyId playerId p (GameUpdate now clock payload)))
       = true
    /\ WinnerPopup.title info = "Tie Game!"
    /\ WinnerPopup.hand_information info
       = WinnerPopup.TiedHands
           (map (fun x =>
                   (player_label
                      (prop_of (prop_of state "players")
                         (to_string (prop_of x "player_id")))
                      (prop_of x "player_id"),
                    prop_of x "description"))
              (w :: w' :: ws))
    /\ WinnerPopup.amount_label info = "Split Pot"
    /\ WinnerPopup.amount info = prop_of w "winnings".
Proof.
  intros Hlisten Hstate Hphase Hresult Hauto Hlist Hids Hmapping.
  assert (Hall : Forall present (w :: w' :: ws)).
  { eapply Forall_impl; [exact Hids|].
    intros x Hx. exact (plain_identifier_present x Hx). }
  pose proof (mapping_present _ Hmapping) as Hplayers.
  destruct (get_prop_normal _ _ _ Hphase) as [Hst _].
  pose proof (showdown_info_eval playerId _ _ _ _ _ Hstate Hresult Hlist
                Hall Hst Hplayers) as Hinfo.
  match type of Hinfo with _ = Normal ?i =>
    assert (Hres : resolve_winner playerId payload = Normal (Some i))
  end.
  { rewrite (resolve_winner_cases _ _ _ Hresult), Hauto, Hlist.
    cbn [truthy]. rewrite Hinfo. reflexivity. }
  destruct (popup_state_after_complete lobbyId playerId now clock p payload
              state _ Hlisten Hstate Hphase Hres) as [Hstored Hon].
  eexists. split; [exact Hstored|]. split; [exact Hon|].
  - unfold WinnerPopup.title, WinnerPopup.hand_information,
      WinnerPopup.amount_label, WinnerPopup.amount.
    cbn [isTie isAutoWin allWinners winnings length Nat.ltb Nat.leb].
    repeat split; try reflexivity.
    rewrite map_map. reflexivity.
Qed.

(** The theorem at the uneven split, seen by "p1". *)
Lemma tie_popup_witness :
  listening (step "L1" "p1" unopened Open) = true
  /\ get_prop Scenario.split_pot "state"
     = Normal (prop_of Scenario.split_pot "state")
  /\ get_prop (prop_of Scenario.split_pot "state") "phase"
     = Normal (VStr "complete")
  /\ get_prop Scenario.split_pot "result"
     = Normal (prop_of Scenario.split_pot "result")
  /\ signals_auto_win (prop_of Scenario.split_pot "result") = false
  /\ opt_prop (prop_of Scenario.split_pot "result") "winners"
     = VArr [Scenario.pair_of_p2; Scenario.pair_of_p1]
  /\ Forall (fun x => plain_identifier (prop_of x "player_id") = true)
       [Scenario.pair_of_p2; Scenario.pair_of_p1]
  /\ mapping (prop_of (prop_of Scenario.split_pot "state") "players") = true
  /\ exists info,
      winnerInfo
        (GamePage.state
           (step "L1" "p1" (step "L1" "p1" unopened Open)
              (GameUpdate 0 "12:00:00" Scenario.split_pot)))
      = Some info
      /\ WinnerPopup.title info = "Tie Game!"
      /\ WinnerPopup.hand_information info
         = WinnerPopup.TiedHands
             [(VStr "Bob", VStr "Pair"); (VStr "Ann", VStr "Pair")]
      /\ WinnerPopup.amount info = VNum 61.
Proof.
  assert (Hids : Forall
                   (fun x => plain_identifier (prop_of x "player_id") = true)
                   [Scenario.pair_of_p2; Scenario.pair_of_p1]).
  { repeat constructor. }
  do 6 (split; [reflexivity|]). split; [exact Hids|].
  split; [reflexivity|].
  destruct (tie_popup "L1" "p1" 0 "12:00:00" (step "L1" "p1" unopened Open)
              Scenario.split_pot
              (prop_of Scenario.split_pot "state")
              (prop_of Scenario.split_pot "result")
              Scenario.pair_of_p2 Scenario.pair_of_p1 []
              eq_refl eq_refl eq_refl eq_refl eq_refl eq_refl Hids eq_refl)
    as (info & Hinfo & _ & Htitle & Hlines & _ & Hamount).
  exists info. split; [exact Hinfo|]. split; [exact Htitle|].
  split; [exact Hlines|exact Hamount].
Defined.

(** X12.  A win by fold is announced as an auto-win.  A terminal
    delivery with an auto-win result whose [winner] is a player
    identifier, on a snapshot whose [players] is a mapping, leaves the
    popup switched on over an outcome for which the popup block has the
    auto-win layout and the caption "Pot Won", never those of a tie; its
    headline is "You Won!" when the winner identifier is the viewer's,
    and otherwise the name of the winner's player record, or "Player "
    and the identifier when the record has no name, followed by
    " Won!". *)
Theorem auto_win_popup
    (lobbyId playerId : string) (now : Z) (clock : string) (p : Page)
    payload state result (winnerId : string) :
  listening p = true ->
  get_prop payload "state" = Normal state ->
  get_prop state "phase" = Normal (VStr "complete") ->
  get_prop payload "result" = Normal result ->
  signals_auto_win result = true ->
  prop_of result "winner" = VStr winnerId ->
  plain_key winnerId = true ->
  mapping (prop_of state "players") = true ->
  exists info,
    winnerInfo
      (GamePage.state
         (step lobbyId playerId p (GameUpdate now clock payload)))
    = Some info
    /\ showWinnerPopup
         (GamePage.state
            (step lobbyId playerId p (GameUpdate now clock payload)))
       = true
    /\ WinnerPopup.hand_information info
       = WinnerPopup.AutoWinBody (VStr "Auto-win (all others folded)")
    /\ WinnerPopup.amount_label info = "Pot Won"
    /\ (winnerId = playerId -> WinnerPopup.title info = "You Won!")
    /\ (winnerId <> playerId ->
        forall name : string,
          opt_prop (prop_of (prop_of state "players") winnerId) "name"
          = VStr name ->
          name <> "" ->
          WinnerPopup.title info = name +:+ " Won!")
    /\ (winnerId <> playerId ->
        truthy
          (opt_prop (prop_of (prop_of state "players") winnerId) "name")
        = false ->
        WinnerPopup.title info = ("Player " +:+ winnerId) +:+ " Won!").
Proof.
  intros Hlisten Hstate Hphase Hresult Hauto Hwinner _ Hmapping.
  pose proof (mapping_present _ Hmapping) as Hplayers.
  destruct (get_prop_normal _ _ _ Hphase) as [Hst _].
  pose proof (auto_win_info_eval playerId _ _ _ Hstate Hresult
                (signals_auto_win_present _ Hauto) Hst Hplayers) as Hinfo.
  rewrite Hwinner in Hinfo. cbn [to_string] in Hinfo.
  match type of Hinfo with _ = Normal ?i =>
    assert (Hres : resolve_winner playerId payload = Normal (Some i))
  end.
  { rewrite (resolve_winner_cases _ _ _ Hresult), Hauto, Hinfo.
    reflexivity. }
  destruct (popup_state_after_complete lobbyId playerId now clock p payload
              state _ Hlisten Hstate Hphase Hres) as [Hstored Hon].
  eexists. split; [exact Hstored|]. split; [exact Hon|].
  - unfold WinnerPopup.title, WinnerPopup.hand_information,
      WinnerPopup.amount_label.
    cbn [isTie isAutoWin isCurrentPlayer handDescription playerName
         strict_eq].
    split; [reflexivity|]. split; [reflexivity|]. split; [|split].
    + intros ->. rewrite String.eqb_refl. reflexivity.
    + intros Hother name Hname Hnonempty.
      apply String.eqb_neq in Hother. rewrite Hother.
      unfold player_label, js_or. rewrite Hname.
      destruct name as [|c rest]; [contradiction Hnonempty; reflexivity|].
      reflexivity.
    + intros Hother Hnameless.
      apply String.eqb_neq in Hother. rewrite Hother.
      unfold player_label, js_or. rewrite Hnameless. reflexivity.
Qed.

(** The theorem at Scenario E, seen by "p1". *)
Lemma auto_win_popup_witness :
  listening (step "L1" "p1" unopened Open) = true
  /\ get_prop Scenario.fold_win "state"
     = Normal (prop_of Scenario.fold_win "state")
  /\ get_prop (prop_of Scenario.fold_win "state") "phase"
     = Normal (VStr "complete")
  /\ get_prop Scenario.fold_win "result"
     = Normal (prop_of Scenario.fold_win "result")
  /\ signals_auto_win (prop_of Scenario.fold_win "result") = true
  /\ prop_of (prop_of Scenario.fold_win "result") "winner" = VStr "p2"
  /\ plain_key "p2" = true
  /\ mapping (prop_of (prop_of Scenario.fold_win "state") "players") = true
  /\ exists info,
      winnerInfo
        (GamePage.state
           (step "L1" "p1" (step "L1" "p1" unopened Open)
              (GameUpdate 0 "12:00:00" Scenario.fold_win)))
      = Some info
      /\ WinnerPopup.title info = "Player p2 Won!".
Proof.
  do 8 (split; [reflexivity|]).
  destruct (auto_win_popup "L1" "p1" 0 "12:00:00"
              (step "L1" "p1" unopened Open) Scenario.fold_win
              (prop_of Scenario.fold_win "state")
              (prop_of Scenario.fold_win "result") "p2"
              eq_refl eq_refl eq_refl eq_refl eq_refl eq_refl eq_refl
              eq_refl)
    as (info & Hinfo & _ & _ & _ & _ & _ & Hnameless).
  exists info. split; [exact Hinfo|].
  apply Hnameless; [discriminate|reflexivity].
Defined.

End PopupContents.

(* ===================================================================== *)
(** ** Playing cards: what is written on them                             *)
(* ===================================================================== *)

Section CardFaces.
Import Card.

Lemma slice_suit (c : list N) :
  c <> [] -> slice c (-1) None = drop (length c - 1) c.
Proof.
  intros Hne. unfold slice, relative.
  assert (Hlen : (1 <= length c)%nat) by (destruct c; [congruence|cbn; lia]).
  change (-1 <? 0)%Z with true. cbn match.
  rewrite Z.max_l by lia.
  replace (Z.to_nat (Z.of_nat (length c) - (Z.of_nat (length c) + -1)))
    with 1%nat by lia.
  replace (Z.to_nat (Z.of_nat (length c) + -1)) with (length c - 1)%nat
    by lia.
  apply take_ge. rewrite length_drop. lia.
Qed.

Lemma slice_rank (c : list N) :
  c <> [] -> slice c 0 (Some (-1)%Z) = take (length c - 1) c.
Proof.
  intros Hne. unfold slice, relative.
  assert (Hlen : (1 <= length c)%nat) by (destruct c; [congruence|cbn; lia]).
  change (-1 <? 0)%Z with true. change (0 <? 0)%Z with false. cbn match.
  rewrite Z.max_l by lia. rewrite Z.min_l by lia.
  change (Z.to_nat 0) with 0%nat. cbn [drop].
  f_equal. lia.
Qed.

(** X13.  A card shown face up is split into rank and suit without loss:
    the suit is the last code unit of the card string, the rank is
    everything before it, and rank followed by suit is the card string
    again. *)
Theorem card_face_round_trip (c : list N) (size : string) :
  c <> [] ->
  exists className topLeft center bottomRight rank suit,
    Card (Some c) false size
    = Face className topLeft center bottomRight rank suit
    /\ (rank ++ suit)%list = c
    /\ length suit = 1%nat.
Proof.
  intros Hne. destruct c as [|u c'] eqn:Hc; [congruence|]. rewrite <- Hc in *.
  assert (Hcard : Card (Some c) false size
                  = Face (printed (sizeClasses size) +:+ " playing-card")
                      (printed (cornerSize size) +:+ " corner top-left rank "
                       +:+ default "text-gray-600"
                             (rankColors (slice c (-1) None)))
                      (printed (centerSize size) +:+ " center-suit suit "
                       +:+ default "text-gray-600"
                             (suitColors (slice c (-1) None))
                       +:+ " font-bold")
                      (printed (cornerSize size)
                       +:+ " corner bottom-right rank "
                       +:+ default "text-gray-600"
                             (rankColors (slice c (-1) None)))
                      (slice c 0 (Some (-1)%Z)) (slice c (-1) None)).
  { rewrite Hc. reflexivity. }
  do 6 eexists. split; [exact Hcard|].
  rewrite (slice_suit c Hne), (slice_rank c Hne).
  assert (Hlen : (1 <= length c)%nat) by (rewrite Hc; cbn; lia).
  split; [apply take_drop|].
  rewrite length_drop. lia.
Qed.

(** The theorem at the ten of hearts, "10" followed by U+2665. *)
Lemma card_face_round_trip_witness :
  [49%N; 48%N; 9829%N] <> []
  /\ exists className topLeft center bottomRight rank suit,
      Card (Some [49%N; 48%N; 9829%N]) false "large"
      = Face className topLeft center bottomRight rank suit
      /\ (rank ++ suit)%list = [49%N; 48%N; 9829%N]
      /\ length suit = 1%nat.
Proof.
  assert (H : [49%N; 48%N; 9829%N] <> []) by discriminate.
  split; [exact H|].
  exact (card_face_round_trip [49%N; 48%N; 9829%N] "large" H).
Defined.

Lemma Card_back (c : list N) (size : string) :
  c <> [] ->
  Card (Some c) true size
  = Back (printed (sizeClasses size)
          +:+ " playing-card face-down flex items-center justify-center").
Proof. destruct c; [congruence|reflexivity]. Qed.

(** X14.  Opponents' hole cards are drawn without their contents: in the
    players list, any two cards of a player other than the viewer are
    drawn alike, as the same card back, whatever is written in the
    card strings. *)
Theorem opponent_cards_are_hidden
    (playerId pid : string) (c1 c2 : list N) :
  pid <> playerId ->
  c1 <> [] ->
  c2 <> [] ->
  hole_card playerId pid (Some c1) = hole_card playerId pid (Some c2)
  /\ exists className, hole_card playerId pid (Some c1) = Back className.
Proof.
  intros Hother H1 H2. unfold hole_card.
  apply String.eqb_neq in Hother. rewrite Hother. cbn [negb].
  rewrite (Card_back c1 _ H1), (Card_back c2 _ H2).
  split; [reflexivity|]. eexists. reflexivity.
Qed.

(** The theorem at the ace of spades and the two of hearts of "p2", seen
    by "p1". *)
Lemma opponent_cards_are_hidden_witness :
  "p2" <> "p1"
  /\ [65%N; 9824%N] <> []
  /\ [50%N; 9829%N] <> []
  /\ hole_card "p1" "p2" (Some [65%N; 9824%N])
     = hole_card "p1" "p2" (Some [50%N; 9829%N]).
Proof.
  assert (Hp : "p2" <> "p1") by discriminate.
  assert (H1 : [65%N; 9824%N] <> []) by discriminate.
  assert (H2 : [50%N; 9829%N] <> []) by discriminate.
  split; [exact Hp|]. split; [exact H1|]. split; [exact H2|].
  exact (proj1 (opponent_cards_are_hidden "p1" "p2" _ _ Hp H1 H2)).
Defined.

(** X15.  Rank and suit of a face are always drawn in one colour, fixed
    by the last code unit of the card: red for hearts and diamonds,
    black for spades and clubs, grey for anything else. *)
Theorem card_colours (c : list N) (size : string) :
  c <> [] ->
  exists colour className rank suit,
    Card (Some c) false size
    = Face className
        (printed (cornerSize size) +:+ " corner top-left rank " +:+ colour)
        (printed (centerSize size) +:+ " center-suit suit " +:+ colour
         +:+ " font-bold")
        (printed (cornerSize size) +:+ " corner bottom-right rank "
         +:+ colour)
        rank suit
    /\ (suit = heart \/ suit = diamond -> colour = "text-red-600")
    /\ (suit = spade \/ suit = club -> colour = "text-black")
    /\ (suit <> heart -> suit <> diamond -> suit <> spade -> suit <> club ->
        colour = "text-gray-600").
Proof.
  intros Hne. destruct c as [|u c'] eqn:Hc; [congruence|]. rewrite <- Hc in *.
  exists (default "text-gray-600" (suitColors (slice c (-1) None))).
  do 3 eexists. split.
  { rewrite Hc. reflexivity. }
  unfold suitColors.
  split; [|split].
  - intros [-> | ->]; reflexivity.
  - intros [-> | ->]; reflexivity.
  - intros Hh Hd Hs Hcl.
    rewrite (decide_False _ _ Hs), (decide_False _ _ Hh),
      (decide_False _ _ Hd), (decide_False _ _ Hcl).
    reflexivity.
Qed.

(** The theorem at the ten of hearts. *)
Lemma card_colours_witness :
  [49%N; 48%N; 9829%N] <> []
  /\ exists colour className rank suit,
      Card (Some [49%N; 48%N; 9829%N]) false "large"
      = Face className
          (printed (cornerSize "large") +:+ " corner top-left rank "
           +:+ colour)
          (printed (centerSize "large") +:+ " center-suit suit " +:+ colour
           +:+ " font-bold")
          (printed (cornerSize "large") +:+ " corner bottom-right rank "
           +:+ colour)
          rank suit
      /\ suit = heart
      /\ colour = "text-red-600".
Proof.
  assert (H : [49%N; 48%N; 9829%N] <> []) by discriminate.
  split; [exact H|].
  destruct (card_colours [49%N; 48%N; 9829%N] "large" H)
    as (colour & className & rank & suit & Hface & Hred & _).
  exists colour, className, rank, suit.
  split; [exact Hface|].
  assert (Hsuit : suit = heart).
  { injection Hface as _ _ _ _ _ Hsuit. rewrite <- Hsuit. reflexivity. }
  split; [exact Hsuit|]. apply Hred. left. exact Hsuit.
Defined.

End CardFaces.

(* ===================================================================== *)
(** ** The lobby list of the home page                                    *)
(* ===================================================================== *)

Section LobbyList.
Import Js HomePage Spec Shape.

Implicit Types (lobby l x : value) (prev next : list value).

Lemma is_lobby_present l : is_lobby l -> present l /\ truthy l = true.
Proof. intros [Hrec _]. destruct l; try discriminate. split; reflexivity. Qed.

Lemma same_lobby_pure lobby l :
  present lobby -> present l ->
  same_lobby lobby l
  = Normal (strict_eq (prop_of l "lobby_id") (prop_of lobby "lobby_id")).
Proof.
  intros Hlobby Hl. unfold same_lobby.
  rewrite (get_prop_present _ _ Hl). cbn [bind].
  rewrite (get_prop_present _ _ Hlobby). reflexivity.
Qed.

Lemma same_id lobby l :
  is_lobby lobby ->
  strict_eq (prop_of l "lobby_id") (prop_of lobby "lobby_id") = true
  <-> prop_of l "lobby_id" = prop_of lobby "lobby_id".
Proof.
  intros [_ Hprim]. split; [apply strict_eq_eq|].
  intros ->. exact Hprim.
Qed.

(** The updater on a list of lobby records, as a closed formula. *)
Lemma upsert_lobby_pure lobby prev :
  is_lobby lobby ->
  Forall is_lobby prev ->
  upsert_lobby lobby prev
  = Normal
      (if existsb
            (fun l => strict_eq (prop_of l "lobby_id")
                        (prop_of lobby "lobby_id")) prev
       then map (fun l => if strict_eq (prop_of l "lobby_id")
                                (prop_of lobby "lobby_id")
                          then lobby else l) prev
       else prev ++ [lobby])%list.
Proof.
  intros Hlobby Hprev.
  destruct (is_lobby_present _ Hlobby) as [Hpl _].
  assert (Hfind :
    exists found,
      array_find (same_lobby lobby) prev = Normal found
      /\ truthy found
         = existsb (fun l => strict_eq (prop_of l "lobby_id")
                               (prop_of lobby "lobby_id")) prev).
  { induction Hprev as [|l prev Hl _ IH].
    - exists VUndefined. split; reflexivity.
    - destruct (is_lobby_present _ Hl) as [Hp Ht].
      cbn [array_find existsb]. rewrite (same_lobby_pure _ _ Hpl Hp).
      cbn [bind].
      destruct (strict_eq (prop_of l "lobby_id") (prop_of lobby "lobby_id")).
      + exists l. split; [reflexivity|exact Ht].
      + exact IH. }
  assert (Hmap :
    array_map (replace_lobby lobby) prev
    = Normal (map (fun l => if strict_eq (prop_of l "lobby_id")
                                 (prop_of lobby "lobby_id")
                            then lobby else l) prev)).
  { clear Hfind. induction Hprev as [|l prev Hl _ IH]; [reflexivity|].
    destruct (is_lobby_present _ Hl) as [Hp _].
    cbn [array_map map]. unfold replace_lobby at 1.
    rewrite (same_lobby_pure _ _ Hpl Hp). cbn [bind]. rewrite IH.
    reflexivity. }
  destruct Hfind as (found & Hfound & Htruthy).
  unfold upsert_lobby. rewrite Hfound. cbn [bind]. rewrite Htruthy.
  destruct (existsb _ prev); [exact Hmap|reflexivity].
Qed.

(** X16.  The latest broadcast of a lobby wins.  On a list of lobby
    records, the update of the list by a lobby record yields a list that
    contains the delivered lobby, contains no other entry with its
    identifier, and has exactly the entries of the old list under every
    other identifier. *)
Theorem upsert_lobby_latest_wins lobby prev :
  is_lobby lobby ->
  Forall is_lobby prev ->
  exists next,
    upsert_lobby lobby prev = Normal next
    /\ lobby ∈ next
    /\ (forall x,
           x ∈ next ->
           prop_of x "lobby_id" = prop_of lobby "lobby_id" -> x = lobby)
    /\ (forall x,
           prop_of x "lobby_id" <> prop_of lobby "lobby_id" ->
           x ∈ next <-> x ∈ prev)
    /\ Forall is_lobby next.
Proof.
  intros Hlobby Hprev. eexists.
  split; [apply (upsert_lobby_pure _ _ Hlobby Hprev)|].
  pose proof (fun l => same_id lobby l Hlobby) as Hsame.
  destruct (existsb
              (fun l => strict_eq (prop_of l "lobby_id")
                          (prop_of lobby "lobby_id")) prev) eqn:Hex.
  - apply existsb_exists in Hex as (l0 & Hin0 & Hl0).
    split; [|split; [|split]].
    + apply list_elem_of_In, in_map_iff. exists l0.
      split; [|exact Hin0]. cbn beta. rewrite Hl0. reflexivity.
    + intros x Hx Hid.
      apply list_elem_of_In, in_map_iff in Hx as (l & Hr & Hl).
      cbn beta in Hr.
      destruct (strict_eq (prop_of l "lobby_id") (prop_of lobby "lobby_id"))
        eqn:E; [symmetry; exact Hr|].
      subst x. apply Hsame in Hid. congruence.
    + intros x Hne. rewrite !list_elem_of_In, in_map_iff. split.
      * intros (l & Hr & Hl). cbn beta in Hr.
        destruct (strict_eq (prop_of l "lobby_id") (prop_of lobby "lobby_id"))
          eqn:E; [|subst x; exact Hl].
        exfalso. apply Hne. subst x. reflexivity.
      * intros Hx. exists x. split; [|exact Hx]. cbn beta.
        destruct (strict_eq (prop_of x "lobby_id") (prop_of lobby "lobby_id"))
          eqn:E; [|reflexivity].
        apply Hsame in E. contradiction.
    + apply Forall_forall. intros x Hx.
      apply list_elem_of_In, in_map_iff in Hx as (l & Hr & Hl).
      cbn beta in Hr.
      destruct (strict_eq (prop_of l "lobby_id") (prop_of lobby "lobby_id"));
        subst x; [exact Hlobby|].
      rewrite Forall_forall in Hprev. apply Hprev, list_elem_of_In, Hl.
  - split; [|split; [|split]].
    + apply elem_of_app. right. apply list_elem_of_singleton. reflexivity.
    + intros x Hx Hid. apply elem_of_app in Hx as [Hx|Hx].
      * exfalso. apply Hsame in Hid.
        assert (Hex' : existsb
                         (fun l => strict_eq (prop_of l "lobby_id")
                                     (prop_of lobby "lobby_id")) prev = true).
        { apply existsb_exists. exists x.
          split; [apply list_elem_of_In, Hx | exact Hid]. }
        congruence.
      * apply list_elem_of_singleton in Hx. exact Hx.
    + intros x Hne. rewrite elem_of_app, list_elem_of_singleton.
      split; [|auto]. intros [Hx| ->]; [exact Hx|]. contradiction.
    + apply Forall_app. split; [exact Hprev|]. constructor; [exact Hlobby|].
      constructor.
Qed.

(** The theorem at a lobby that fills up. *)
Lemma upsert_lobby_latest_wins_witness :
  is_lobby (lobby_of "L1" "Friday" [VStr "p1"; VStr "p2"])
  /\ Forall is_lobby
       [lobby_of "L0" "Monday" []; lobby_of "L1" "Friday" [VStr "p1"]]
  /\ upsert_lobby (lobby_of "L1" "Friday" [VStr "p1"; VStr "p2"])
       [lobby_of "L0" "Monday" []; lobby_of "L1" "Friday" [VStr "p1"]]
     = Normal [lobby_of "L0" "Monday" [];
               lobby_of "L1" "Friday" [VStr "p1"; VStr "p2"]]
  /\ exists next,
      upsert_lobby (lobby_of "L1" "Friday" [VStr "p1"; VStr "p2"])
        [lobby_of "L0" "Monday" []; lobby_of "L1" "Friday" [VStr "p1"]]
      = Normal next
      /\ lobby_of "L1" "Friday" [VStr "p1"; VStr "p2"] ∈ next.
Proof.
  assert (Hl : is_lobby (lobby_of "L1" "Friday" [VStr "p1"; VStr "p2"])).
  { split; reflexivity. }
  assert (Hp : Forall is_lobby
                 [lobby_of "L0" "Monday" [];
                  lobby_of "L1" "Friday" [VStr "p1"]]).
  { repeat constructor. }
  split; [exact Hl|]. split; [exact Hp|]. split; [reflexivity|].
  destruct (upsert_lobby_latest_wins _ _ Hl Hp) as (next & Hnext & Hin & _).
  exists next. split; [exact Hnext | exact Hin].
Defined.

(** X17.  Delivering the same lobby broadcast twice is the same as
    delivering it once. *)
Theorem upsert_lobby_idempotent lobby prev :
  is_lobby lobby ->
  Forall is_lobby prev ->
  exists next,
    upsert_lobby lobby prev = Normal next
    /\ upsert_lobby lobby next = Normal next.
Proof.
  intros Hlobby Hprev.
  pose proof (fun l => same_id lobby l Hlobby) as Hsame.
  assert (Hself : strict_eq (prop_of lobby "lobby_id")
                    (prop_of lobby "lobby_id") = true).
  { apply Hsame. reflexivity. }
  eexists. split; [apply (upsert_lobby_pure _ _ Hlobby Hprev)|].
  destruct (existsb
              (fun l => strict_eq (prop_of l "lobby_id")
                          (prop_of lobby "lobby_id")) prev) eqn:Hex.
  - rewrite (upsert_lobby_pure _ _ Hlobby).
    2:{ apply Forall_forall. intros x Hx.
        apply list_elem_of_In, in_map_iff in Hx as (l & Hr & Hl).
        cbn beta in Hr.
        destruct (strict_eq (prop_of l "lobby_id") (prop_of lobby "lobby_id"));
          subst x; [exact Hlobby|].
        rewrite Forall_forall in Hprev. apply Hprev, list_elem_of_In, Hl. }
    assert (Hex' : existsb
              (fun l => strict_eq (prop_of l "lobby_id")
                          (prop_of lobby "lobby_id"))
              (map (fun l => if strict_eq (prop_of l "lobby_id")
                                  (prop_of lobby "lobby_id")
                             then lobby else l) prev) = true).
    { apply existsb_exists in Hex as (l0 & Hin0 & Hl0).
      apply existsb_exists. exists lobby. split; [|exact Hself].
      apply in_map_iff. exists l0. split; [|exact Hin0].
      cbn beta. rewrite Hl0. reflexivity. }
    rewrite Hex'. f_equal. rewrite map_map. apply map_ext. intros l.
    destruct (strict_eq (prop_of l "lobby_id") (prop_of lobby "lobby_id"))
      eqn:E; [rewrite Hself | rewrite E]; reflexivity.
  - rewrite (upsert_lobby_pure _ _ Hlobby).
    2:{ apply Forall_app. split; [exact Hprev|].
        constructor; [exact Hlobby|constructor]. }
    rewrite existsb_app. cbn [existsb]. rewrite Hself, Hex. cbn [orb].
    f_equal. rewrite map_app. cbn [map]. rewrite Hself. f_equal.
    rewrite <- (map_id prev) at 2. apply map_ext_in. intros l Hl.
    destruct (strict_eq (prop_of l "lobby_id") (prop_of lobby "lobby_id"))
      eqn:E; [|reflexivity].
    assert (Hex' : existsb
                     (fun l => strict_eq (prop_of l "lobby_id")
                                 (prop_of lobby "lobby_id")) prev = true).
    { apply existsb_exists. exists l. split; [exact Hl|exact E]. }
    congruence.
Qed.

(** The theorem at a lobby that is new to the list. *)
Lemma upsert_lobby_idempotent_witness :
  is_lobby (lobby_of "L1" "Friday" [VStr "p1"])
  /\ Forall is_lobby [lobby_of "L0" "Monday" []]
  /\ exists next,
      upsert_lobby (lobby_of "L1" "Friday" [VStr "p1"])
        [lobby_of "L0" "Monday" []]
      = Normal next
      /\ upsert_lobby (lobby_of "L1" "Friday" [VStr "p1"]) next = Normal next.
Proof.
  assert (Hl : is_lobby (lobby_of "L1" "Friday" [VStr "p1"])).
  { split; reflexivity. }
  assert (Hp : Forall is_lobby [lobby_of "L0" "Monday" []]).
  { repeat constructor. }
  split; [exact Hl|]. split; [exact Hp|].
  exact (upsert_lobby_idempotent _ _ Hl Hp).
Defined.

(** X18.  The list keeps one entry per lobby.  On a list of lobby
    records, an update keeps the length of the list when the delivered
    identifier is already listed and makes it one longer when it is not,
    with the new lobby at the end and the others in their places; a list
    whose identifiers are pairwise different stays so. *)
Theorem upsert_lobby_one_entry_per_lobby lobby prev :
  is_lobby lobby ->
  Forall is_lobby prev ->
  exists next,
    upsert_lobby lobby prev = Normal next
    /\ (prop_of lobby "lobby_id" ∈ lobby_ids prev ->
        lobby_ids next = lobby_ids prev)
    /\ (prop_of lobby "lobby_id" ∉ lobby_ids prev ->
        next = (prev ++ [lobby])%list)
    /\ (NoDup (lobby_ids prev) -> NoDup (lobby_ids next)).
Proof.
  intros Hlobby Hprev. eexists.
  split; [apply (upsert_lobby_pure _ _ Hlobby Hprev)|].
  pose proof (fun l => same_id lobby l Hlobby) as Hsame.
  assert (Hlisted :
    existsb (fun l => strict_eq (prop_of l "lobby_id")
                        (prop_of lobby "lobby_id")) prev = true
    <-> prop_of lobby "lobby_id" ∈ lobby_ids prev).
  { rewrite existsb_exists. unfold lobby_ids.
    rewrite list_elem_of_In, in_map_iff.
    split; intros (x & H1 & H2); exists x.
    - split; [|exact H1]. apply Hsame, H2.
    - split; [exact H2|]. apply Hsame, H1. }
  assert (Hids :
    lobby_ids
      (map (fun l => if strict_eq (prop_of l "lobby_id")
                          (prop_of lobby "lobby_id")
                     then lobby else l) prev)
    = lobby_ids prev).
  { unfold lobby_ids. rewrite map_map. apply map_ext. intros l.
    destruct (strict_eq (prop_of l "lobby_id") (prop_of lobby "lobby_id"))
      eqn:E; [|reflexivity].
    symmetry. apply Hsame, E. }
  destruct (existsb _ prev) eqn:Hex.
  - split; [intros _; exact Hids|]. split.
    + intros Hnot. exfalso. apply Hnot, Hlisted. reflexivity.
    + intros Hnodup. rewrite Hids. exact Hnodup.
  - assert (Hnot : prop_of lobby "lobby_id" ∉ lobby_ids prev).
    { intros Hin. apply Hlisted in Hin. discriminate. }
    split; [intros Hin; contradiction|]. split; [reflexivity|].
    intros Hnodup. unfold lobby_ids. rewrite map_app.
    apply NoDup_app. split; [exact Hnodup|]. split.
    + intros id Hid Hnew. apply list_elem_of_singleton in Hnew. subst id.
      exact (Hnot Hid).
    + cbn. apply NoDup_singleton.
Qed.

(** The theorem at a lobby that fills up. *)
Lemma upsert_lobby_one_entry_per_lobby_witness :
  is_lobby (lobby_of "L1" "Friday" [VStr "p1"; VStr "p2"])
  /\ Forall is_lobby
       [lobby_of "L0" "Monday" []; lobby_of "L1" "Friday" [VStr "p1"]]
  /\ exists next,
      upsert_lobby (lobby_of "L1" "Friday" [VStr "p1"; VStr "p2"])
        [lobby_of "L0" "Monday" []; lobby_of "L1" "Friday" [VStr "p1"]]
      = Normal next
      /\ lobby_ids next = [VStr "L0"; VStr "L1"].
Proof.
  assert (Hl : is_lobby (lobby_of "L1" "Friday" [VStr "p1"; VStr "p2"])).
  { split; reflexivity. }
  assert (Hp : Forall is_lobby
                 [lobby_of "L0" "Monday" [];
                  lobby_of "L1" "Friday" [VStr "p1"]]).
  { repeat constructor. }
  split; [exact Hl|]. split; [exact Hp|].
  destruct (upsert_lobby_one_entry_per_lobby _ _ Hl Hp)
    as (next & Hnext & Hlisted & _).
  exists next. split; [exact Hnext|].
  apply Hlisted. apply list_elem_of_In. right. left. reflexivity.
Defined.

(** An update of the empty list never reads the delivered lobby, so even
    [null] is taken in; it then makes every later update throw. *)
Example null_lobby_poisons_the_list :
  upsert_lobby VNull [] = Normal [VNull]
  /\ upsert_lobby (lobby_of "L1" "Friday" []) [VNull] = Throw TypeError.
Proof. split; reflexivity. Qed.

End LobbyList.

(* ===================================================================== *)
(** ** The stored session                                                 *)
(* ===================================================================== *)

Section StoredSession.
Import Js AuthContext Shape.

Variable JSON_parse : string -> option value.
Variable JSON_stringify : value -> string.

Lemma getItem_truthy (storage : gmap string string) (k : string) :
  truthy (getItem storage k) = true
  <-> exists s, storage !! k = Some s /\ s <> "".
Proof.
  unfold getItem. destruct (storage !! k) as [s|]; cbn [truthy].
  - rewrite negb_true_iff, String.eqb_neq. split.
    + intros H. exists s. split; [reflexivity|exact H].
    + intros (s' & [= <-] & H). exact H.
  - split; [discriminate|]. intros (s & H & _). discriminate.
Qed.

(** X19.  Logging out signs the user out for good: the session holds
    neither user nor token and yields no authorization header, both
    stored items are gone while every other item of the store is left
    alone, and the next start of the application finds nothing to
    restore. *)
Theorem logout_stays_signed_out
    (s : Session) (storage : gmap string string) :
  isAuthenticated (fst (logout s storage)) = false
  /\ getAuthHeaders (fst (logout s storage)) = obj []
  /\ snd (logout s storage) !! "access_token" = None
  /\ snd (logout s storage) !! "user" = None
  /\ (forall k,
         k <> "access_token" -> k <> "user" ->
         snd (logout s storage) !! k = storage !! k)
  /\ isAuthenticated
       (fst (restore JSON_parse (fst (logout s storage))
               (snd (logout s storage))))
     = false
  /\ snd (restore JSON_parse (fst (logout s storage))
            (snd (logout s storage)))
     = snd (logout s storage).
Proof.
  cbn [logout fst snd].
  assert (Htoken : (delete "user" (delete "access_token" storage)
                    : gmap string string) !! "access_token" = None).
  { rewrite lookup_delete_ne by discriminate. apply lookup_delete_eq. }
  assert (Huser : (delete "user" (delete "access_token" storage)
                   : gmap string string) !! "user" = None).
  { apply lookup_delete_eq. }
  split; [reflexivity|]. split; [reflexivity|].
  split; [exact Htoken|]. split; [exact Huser|]. split.
  - intros k Hk1 Hk2. rewrite !lookup_delete_ne by congruence. reflexivity.
  - unfold restore, getItem. rewrite Htoken. cbn [truthy andb fst snd].
    split; reflexivity.
Qed.

(** X20.  Stored user data that cannot be parsed is discarded: with a
    token and a user item in the store and [JSON.parse] throwing on the
    user item, the start-up removes both items, leaves the session as it
    was apart from ending the loading state, and a further start-up
    finds nothing left to restore. *)
Theorem corrupt_session_is_discarded
    (s : Session) (storage : gmap string string) (t u : string) :
  storage !! "access_token" = Some t -> t <> "" ->
  storage !! "user" = Some u -> u <> "" ->
  JSON_parse u = None ->
  restore JSON_parse s storage
  = ({| user := user s; loading := false; token := token s |},
     delete "user" (delete "access_token" storage))
  /\ snd (restore JSON_parse s storage) !! "access_token" = None
  /\ snd (restore JSON_parse s storage) !! "user" = None
  /\ restore JSON_parse (fst (restore JSON_parse s storage))
       (snd (restore JSON_parse s storage))
     = restore JSON_parse s storage.
Proof.
  intros Ht Hne Hu Hune Hparse.
  assert (Hrestore :
    restore JSON_parse s storage
    = ({| user := user s; loading := false; token := token s |},
       delete "user" (delete "access_token" storage))).
  { unfold restore, getItem. rewrite Ht, Hu. cbn [truthy to_string].
    apply String.eqb_neq in Hne, Hune. rewrite Hne, Hune. cbn [negb andb].
    rewrite Hparse. reflexivity. }
  assert (Htoken : (delete "user" (delete "access_token" storage)
                    : gmap string string) !! "access_token" = None).
  { rewrite lookup_delete_ne by discriminate. apply lookup_delete_eq. }
  rewrite Hrestore. cbn [fst snd].
  split; [reflexivity|]. split; [exact Htoken|].
  split; [apply lookup_delete_eq|].
  unfold restore, getItem. rewrite Htoken. reflexivity.
Qed.

(** X21.  The start-up signs a user in exactly when the store holds a
    non-empty token item and a non-empty user item that parses to a
    truthy value; in every case it ends the loading state, and it
    changes the store only by discarding items it could not parse. *)
Theorem restore_signs_in_iff (storage : gmap string string) :
  (isAuthenticated (fst (restore JSON_parse signed_out storage)) = true
   <-> exists t u v,
       storage !! "access_token" = Some t /\ t <> ""
       /\ storage !! "user" = Some u /\ u <> ""
       /\ JSON_parse u = Some v /\ truthy v = true)
  /\ loading (fst (restore JSON_parse signed_out storage)) = false
  /\ (snd (restore JSON_parse signed_out storage) = storage
      \/ exists u,
          storage !! "user" = Some u /\ JSON_parse u = None
          /\ snd (restore JSON_parse signed_out storage)
             = delete "user" (delete "access_token" storage)).
Proof.
  unfold restore.
  destruct (truthy (getItem storage "access_token")
            && truthy (getItem storage "user")) eqn:Hboth.
  - apply andb_true_iff in Hboth as [Ht Hu].
    pose proof Ht as Ht'. pose proof Hu as Hu'.
    apply getItem_truthy in Ht' as (t & Hts & Htne).
    apply getItem_truthy in Hu' as (u & Hus & Hune).
    assert (Hstored : to_string (getItem storage "user") = u).
    { unfold getItem. rewrite Hus. reflexivity. }
    rewrite Hstored.
    destruct (JSON_parse u) as [v|] eqn:Hparse; cbn [fst snd loading].
    + split; [|split; [reflexivity|left; reflexivity]].
      unfold isAuthenticated. cbn [token user]. rewrite Ht. cbn [andb].
      split.
      * intros Hv. exists t, u, v. repeat split; assumption.
      * intros (t' & u' & v' & _ & _ & Hu'' & _ & Hp & Hv).
        rewrite Hus in Hu''. injection Hu'' as <-. congruence.
    + split; [|split; [reflexivity|]].
      * split; [discriminate|].
        intros (t' & u' & v' & _ & _ & Hu'' & _ & Hp & _).
        rewrite Hus in Hu''. injection Hu'' as <-. congruence.
      * right. exists u. repeat split; assumption || reflexivity.
  - cbn [fst snd loading].
    split; [|split; [reflexivity|left; reflexivity]].
    split; [discriminate|].
    intros (t & u & v & Ht & Htne & Hu & Hune & _).
    assert (Hboth' : truthy (getItem storage "access_token")
                     && truthy (getItem storage "user") = true).
    { apply andb_true_iff. split; apply getItem_truthy; eauto. }
    congruence.
Qed.

(** X22.  A session survives a reload.  After a login whose token and
    user data are stored as non-empty strings, with user data that
    [JSON.parse] reads back from what [JSON.stringify] wrote, the next
    start of the application restores the same user, with the token in
    its string form; and a login with a truthy token and truthy user
    data is authenticated and yields the bearer header of that token. *)
Theorem login_survives_reload
    (tokenData userData access_token : value) (s : Session)
    (storage : gmap string string) :
  get_prop tokenData "access_token" = Normal access_token ->
  to_string access_token <> "" ->
  JSON_stringify userData <> "" ->
  JSON_parse (JSON_stringify userData) = Some userData ->
  exists s' storage',
    login JSON_stringify tokenData userData s storage = Normal (s', storage')
    /\ user s' = userData
    /\ token s' = access_token
    /\ restore JSON_parse signed_out storage'
       = ({| user := userData; loading := false;
             token := VStr (to_string access_token) |}, storage')
    /\ (truthy access_token = true -> truthy userData = true ->
        isAuthenticated s' = true
        /\ getAuthHeaders s'
           = obj [("Authorization",
                   VStr ("Bearer " +:+ to_string access_token))]).
Proof.
  intros Htoken Hne Hune Hparse.
  unfold login. rewrite Htoken. cbn [bind].
  do 2 eexists. split; [reflexivity|].
  cbn [user token]. split; [reflexivity|]. split; [reflexivity|]. split.
  - unfold restore, getItem.
    rewrite lookup_insert_ne by discriminate.
    rewrite !lookup_insert_eq. cbn [truthy to_string].
    apply String.eqb_neq in Hne, Hune. rewrite Hne, Hune. cbn [negb andb].
    rewrite Hparse. reflexivity.
  - intros Ht Hu. unfold isAuthenticated, getAuthHeaders. cbn [token user].
    rewrite Ht, Hu. split; reflexivity.
Qed.

End StoredSession.

Section StoredSessionExamples.
Import Js AuthContext Shape.

(** The theorem at a store whose user item is not JSON. *)
Lemma corrupt_session_is_discarded_witness :
  ({[ "access_token" := "abc"; "user" := "{oops" ]} : gmap string string)
    !! "access_token" = Some "abc"
  /\ "abc" <> ""
  /\ ({[ "access_token" := "abc"; "user" := "{oops" ]} : gmap string string)
       !! "user" = Some "{oops"
  /\ "{oops" <> ""
  /\ parse_42 "{oops" = None
  /\ restore parse_42 signed_out
       {[ "access_token" := "abc"; "user" := "{oops" ]}
     = ({| user := VNull; loading := false; token := VNull |},
        delete "user"
          (delete "access_token"
             ({[ "access_token" := "abc"; "user" := "{oops" ]}
              : gmap string string))).
Proof.
  assert (H1 : "abc" <> "") by discriminate.
  assert (H2 : "{oops" <> "") by discriminate.
  split; [reflexivity|]. split; [exact H1|]. split; [reflexivity|].
  split; [exact H2|]. split; [reflexivity|].
  exact (proj1 (corrupt_session_is_discarded parse_42 signed_out
                  {[ "access_token" := "abc"; "user" := "{oops" ]}
                  "abc" "{oops" eq_refl H1 eq_refl H2 eq_refl)).
Defined.

(** The theorem at a login with the token "abc" and the user data 42. *)
Lemma login_survives_reload_witness :
  get_prop (obj [("access_token", VStr "abc")]) "access_token"
  = Normal (VStr "abc")
  /\ to_string (VStr "abc") <> ""
  /\ stringify_number (VNum 42) <> ""
  /\ parse_42 (stringify_number (VNum 42)) = Some (VNum 42)
  /\ exists s' storage',
      login stringify_number (obj [("access_token", VStr "abc")]) (VNum 42)
        signed_out ∅
      = Normal (s', storage')
      /\ restore parse_42 signed_out storage'
         = ({| user := VNum 42; loading := false; token := VStr "abc" |},
            storage').
Proof.
  assert (H1 : to_string (VStr "abc") <> "") by discriminate.
  assert (H2 : stringify_number (VNum 42) <> "") by discriminate.
  split; [reflexivity|]. split; [exact H1|]. split; [exact H2|].
  split; [reflexivity|].
  destruct (login_survives_reload parse_42 stringify_number
              (obj [("access_token", VStr "abc")]) (VNum 42) (VStr "abc")
              signed_out ∅ eq_refl H1 H2 eq_refl)
    as (s' & storage' & Hlogin & _ & _ & Hrestore & _).
  exists s', storage'. split; [exact Hlogin | exact Hrestore].
Defined.

End StoredSessionExamples.
